(** * SQL review: the MSSQL table-naming advisor and the rule-template conversion

    A shallow embedding of

    - the advisor [NamingTableAdvisor] of package [mssql] (its [Check], the
      listener [namingTableListener] with [EnterCreate_table],
      [EnterExecute_body] and [generateAdvice]), and
    - the two conversions of [frontend/src/types/sqlReview.ts]
      ([convertPolicyRuleToRuleTemplate], [convertRuleTemplateToPolicyRule]
      with its helper [mergeIndividualConfigAsRule]),

    followed by the properties of the SQL-review specification that concern
    them. *)

From Stdlib Require Import ZArith String Ascii List Lia DecimalString.
From stdpp Require Import base strings gmap list.

Set Warnings "-register-all".

Local Open Scope string_scope.
Local Open Scope Z_scope.

(** ** Go values shared by the advisor *)

(** A Go [error], by its message. *)
Definition error := string.

(** A Go call returning [(T, error)]: either the value or the error. *)
Inductive GoResult (A : Type) : Type :=
| Return (a : A)
| Err (e : error).
Arguments Return {A} a.
Arguments Err {A} e.

(** A computation that may stop in a run-time panic (a method called on a
    nil interface, a slice expression out of range). *)
Inductive exec (A : Type) : Type :=
| Done (a : A)
| Panic (msg : string).
Arguments Done {A} a.
Arguments Panic {A} msg.

Definition exec_bind {A B} (m : exec A) (k : A -> exec B) : exec B :=
  match m with
  | Done a => k a
  | Panic msg => Panic msg
  end.

Declare Scope exec_scope.
Delimit Scope exec_scope with exec.
Notation "x <- m ;; k" := (exec_bind m (fun x => k))
  (at level 100, m at next level, right associativity) : exec_scope.

(** [x := e; if x == nil { return r }; k] *)
Notation "'let?' x := e 'else' 'return' r ;; k" :=
  (match e with Some x => k | None => r end)
  (at level 100, x name, e at next level, r at next level,
   right associativity, only parsing).

Definition nil_dereference : string :=
  "invalid memory address or nil pointer dereference".
Definition slice_out_of_range : string :=
  "slice bounds out of range".

(** [fmt]'s [%d] on an [int]. *)
Definition itoa (n : Z) : string := NilZero.string_of_int (Z.to_int n).

(** [len(s)] of a Go string: its number of bytes. *)
Definition len (s : string) : Z := Z.of_nat (String.length s).

(** [strings.HasPrefix] and [strings.HasSuffix]. *)
Definition HasPrefix (s p : string) : bool := String.prefix p s.

Definition HasSuffix (s p : string) : bool :=
  let n := String.length s in
  let k := String.length p in
  if (k <=? n)%nat then String.eqb (String.substring (n - k) k s) p else false.

(** The slice expression [s[lo:hi]] on a string; it panics unless
    [0 <= lo <= hi <= len(s)]. *)
Definition slice (s : string) (lo hi : Z) : exec string :=
  if (0 <=? lo) && (lo <=? hi) && (hi <=? len s)
  then Done (String.substring (Z.to_nat lo) (Z.to_nat (hi - lo)) s)
  else Panic slice_out_of_range.

(** ** Package [advisor]: the part the MSSQL advisor uses *)

Module advisor.

Inductive Status : Type := Success | Warn | Error.

Inductive Code : Type := Ok | NamingTableConventionMismatch.

(** [advisor.Advice]; the fields [Status] and [Code] carry a prime since
    the types have the names. *)
Record Advice : Type := {
  Status' : Status;
  Code' : Code;
  Title : string;
  Content : string;
  Line : Z
}.

End advisor.

#[global] Instance Status_eq_dec : EqDecision advisor.Status.
Proof. solve_decision. Defined.
#[global] Instance Code_eq_dec : EqDecision advisor.Code.
Proof. solve_decision. Defined.
#[global] Instance Advice_eq_dec : EqDecision advisor.Advice.
Proof. solve_decision. Defined.

(** What the advisor takes from outside this repository's sources: the rule
    level and payload decoders of package [advisor], Go's [regexp] and
    [strconv.Quote] (the [%q] verb of [fmt]), and the identifier
    normalisation of the T-SQL parser package. *)
Class Deps : Type := {
  SQLReviewRuleLevel : Type;
  RulePayload : Type;
  Regexp : Type;
  Id_Context : Type;
  (** [advisor.NewStatusBySQLReviewRuleLevel] *)
  NewStatusBySQLReviewRuleLevel : SQLReviewRuleLevel -> GoResult advisor.Status;
  (** [advisor.UnmarshalNamingRulePayloadAsRegexp]: the compiled format and
      the maximum length, or an error *)
  UnmarshalNamingRulePayloadAsRegexp : RulePayload -> GoResult (Regexp * Z);
  (** [Regexp.MatchString] of package [regexp] *)
  MatchString : Regexp -> string -> bool;
  (** [Regexp.String]: the source text of the expression *)
  Regexp_String : Regexp -> string;
  (** [strconv.Quote] *)
  Quote : string -> string;
  (** [bbparser.NormalizedTSqlTableNamePart], on a possibly nil identifier *)
  NormalizedTSqlTableNamePart : option Id_Context -> GoResult string
}.

(** ** The parse tree, as the listener reads it *)

Module parser.

(** [table_name]: [GetTable()] is the [table] identifier, nil when the name
    has none; an identifier is read through [GetText()] only. *)
Record Table_nameContext : Type := {
  GetTable : option string
}.

Record Create_tableContext : Type := {
  Table_name : option Table_nameContext;
  (** [GetStart().GetLine()] *)
  Create_table_Line : Z
}.

Record ConstantContext : Type := {
  (** the [STRING] token and its [GetText()] *)
  STRING : option string
}.

Record Execute_parameterContext : Type := {
  Constant : option ConstantContext
}.

Record Execute_statement_arg_unnamedContext : Type := {
  Execute_parameter : option Execute_parameterContext
}.

(** [execute_statement_arg] nests: an argument holds the arguments that
    follow it. *)
Inductive Execute_statement_argContext : Type :=
  Build_Execute_statement_argContext {
    Execute_statement_arg_unnamed : option Execute_statement_arg_unnamedContext;
    AllExecute_statement_arg : list Execute_statement_argContext
  }.

(** [Execute_statement_arg(i)]: the [i]-th nested argument, or nil. *)
Definition Execute_statement_arg_at (a : Execute_statement_argContext) (i : nat)
  : option Execute_statement_argContext :=
  nth_error (AllExecute_statement_arg a) i.

Section WithDeps.
Context `{Deps}.

Record Func_proc_name_schemaContext : Type := {
  GetSchema : option Id_Context;
  GetProcedure : option Id_Context
}.

Record Func_proc_name_database_schemaContext : Type := {
  Func_proc_name_schema : option Func_proc_name_schemaContext
}.

Record Func_proc_name_server_database_schemaContext : Type := {
  Func_proc_name_database_schema : option Func_proc_name_database_schemaContext
}.

Record Execute_bodyContext : Type := {
  Func_proc_name_server_database_schema :
    option Func_proc_name_server_database_schemaContext;
  Execute_statement_arg : option Execute_statement_argContext;
  (** [GetStart().GetLine()] *)
  Execute_body_Line : Z
}.

(** A rule node is one of the two the listener reacts to, or any other. *)
Inductive RuleContext : Type :=
| Create_table (ctx : Create_tableContext)
| Execute_body (ctx : Execute_bodyContext)
| OtherRule.

(** [antlr.Tree] *)
Inductive Tree : Type :=
| TerminalNode
| ErrorNode
| RuleNode (ctx : RuleContext) (children : list Tree).

End WithDeps.

End parser.

(** ** Package [mssql]: the table-naming advisor *)

Module mssql.

Import advisor.

Section WithDeps.
Context `{Deps}.

(** [advisor.Context], by the fields [Check] reads. [AST] is an
    [interface{}]: a tree or some other value. *)
Inductive AST : Type :=
| AST_Tree (tree : parser.Tree)
| AST_Other.

Record SQLReviewRule : Type := {
  Type' : string;
  Level : SQLReviewRuleLevel;
  Payload : RulePayload
}.

Record Context' : Type := {
  ctx_AST : AST;
  Rule : SQLReviewRule
}.

(** [namingTableListener] *)
Record namingTableListener : Type := {
  level : Status;
  title : string;
  format : Regexp;
  maxLength : Z;
  adviceList : list Advice
}.

(** [l.adviceList = append(l.adviceList, a)] *)
Definition append_advice (l : namingTableListener) (a : Advice) : namingTableListener :=
  {| level := level l; title := title l; format := format l;
     maxLength := maxLength l; adviceList := (adviceList l ++ [a])%list |}.

(** The two messages built with [fmt.Sprintf]: [%s] and [%q] (the quoted
    [String()] of the expression), and [%s] and [%d]. *)
Definition format_message (name : string) (re : Regexp) : string :=
  name +:+ " mismatches table naming convention, naming format should be "
       +:+ Quote (Regexp_String re).

Definition length_message (name : string) (n : Z) : string :=
  name +:+ " mismatches table naming convention, its length should be within "
       +:+ itoa n +:+ " characters".

(** [generateAdvice] *)
Definition generateAdvice (l : namingTableListener) : list Advice * option error :=
  let l :=
    if decide (length (adviceList l) = 0%nat) then
      append_advice l {| Status' := Success; Code' := Ok; Title := "OK";
                         Content := EmptyString; Line := 0 |}
    else l in
  (adviceList l, None).

(** [EnterCreate_table] *)
Definition EnterCreate_table (l : namingTableListener) (ctx : parser.Create_tableContext)
  : exec namingTableListener :=
  (tn <- match parser.Table_name ctx with
         | Some tn => Done tn
         | None => Panic nil_dereference
         end ;;
   tableName <- match parser.GetTable tn with
                | Some text => Done text
                | None => Panic nil_dereference
                end ;;
   let l :=
     if negb (MatchString (format l) tableName) then
       append_advice l {| Status' := level l;
                          Code' := NamingTableConventionMismatch;
                          Title := title l;
                          Content := format_message tableName (format l);
                          Line := parser.Create_table_Line ctx |}
     else l in
   let l :=
     if (0 <? maxLength l) && (maxLength l <? len tableName) then
       append_advice l {| Status' := level l;
                          Code' := NamingTableConventionMismatch;
                          Title := title l;
                          Content := length_message tableName (maxLength l);
                          Line := parser.Create_table_Line ctx |}
     else l in
   Done l)%exec.

(** The log of package [log], as the lines written to it. *)
Definition Log := list string.

(** The listener together with the log its handlers write to. *)
Definition state : Type := namingTableListener * Log.

(** [EnterExecute_body] *)
Definition EnterExecute_body (st : state) (ctx : parser.Execute_bodyContext)
  : exec state :=
  let '(l, log) := st in
  let? a := parser.Func_proc_name_server_database_schema ctx else return Done st ;;
  let? b := parser.Func_proc_name_database_schema a else return Done st ;;
  let? c := parser.Func_proc_name_schema b else return Done st ;;
  if bool_decide (parser.GetSchema c <> None) then Done st else
  let v := parser.GetProcedure c in
  match NormalizedTSqlTableNamePart v with
  | Err err =>
      Done (l, (log ++ ["failed to normalize procedure name: " +:+ err])%list)
  | Return normalizedProcedureName =>
  if negb (String.eqb normalizedProcedureName "sp_rename") then Done st else
  let? firstArgument := parser.Execute_statement_arg ctx else return Done st ;;
  let? fu := parser.Execute_statement_arg_unnamed firstArgument else return Done st ;;
  let? fp := parser.Execute_parameter fu else return Done st ;;
  let? fc := parser.Constant fp else return Done st ;;
  let? _ := parser.STRING fc else return Done st ;;
  if negb (length (parser.AllExecute_statement_arg firstArgument) =? 1)%nat
  then Done st else
  let? secondArgument := parser.Execute_statement_arg_at firstArgument 0
    else return Done st ;;
  let? su := parser.Execute_statement_arg_unnamed secondArgument else return Done st ;;
  let? sp := parser.Execute_parameter su else return Done st ;;
  let? sc := parser.Constant sp else return Done st ;;
  let? text := parser.STRING sc else return Done st ;;
  (newTableName <-
     (if HasPrefix text "'" && HasSuffix text "'"
      then slice text 1 (len text - 1)
      else Done text) ;;
   let l :=
     if negb (MatchString (format l) newTableName) then
       append_advice l {| Status' := level l;
                          Code' := NamingTableConventionMismatch;
                          Title := title l;
                          Content := format_message newTableName (format l);
                          Line := parser.Execute_body_Line ctx |}
     else l in
   let l :=
     if (0 <? maxLength l) && (maxLength l <? len newTableName) then
       append_advice l {| Status' := level l;
                          Code' := NamingTableConventionMismatch;
                          Title := title l;
                          Content := length_message newTableName (maxLength l);
                          Line := parser.Execute_body_Line ctx |}
     else l in
   Done (l, log))%exec
  end.

(** [antlr.ParseTreeWalkerDefault.Walk]: a terminal or an error node is
    visited (the base listener does nothing there); a rule node is entered,
    its children are walked from left to right, and it is exited (nothing
    again). Entering dispatches on the kind of the rule; the two handlers
    above are the only ones the listener overrides. *)
Definition EnterRule (st : state) (ctx : parser.RuleContext) : exec state :=
  match ctx with
  | parser.Create_table c =>
      (l <- EnterCreate_table (fst st) c ;; Done (l, snd st))%exec
  | parser.Execute_body c => EnterExecute_body st c
  | parser.OtherRule => Done st
  end.

Fixpoint Walk (st : state) (t : parser.Tree) {struct t} : exec state :=
  match t with
  | parser.TerminalNode => Done st
  | parser.ErrorNode => Done st
  | parser.RuleNode ctx children =>
      (st <- EnterRule st ctx ;;
       (fix walk_children (st : state) (ts : list parser.Tree) {struct ts}
          : exec state :=
          match ts with
          | [] => Done st
          | child :: ts => (st <- Walk st child ;; walk_children st ts)
          end) st children)%exec
  end.

(** The loop over the children, by its own name. *)
Fixpoint Walk_children (st : state) (ts : list parser.Tree) : exec state :=
  match ts with
  | [] => Done st
  | child :: ts => (st <- Walk st child ;; Walk_children st ts)%exec
  end.

(** [NamingTableAdvisor.Check]. The statement text is not read. The result
    is the returned pair and the log after the call. *)
Definition Check (log : Log) (ctx : Context') (_ : string)
  : exec ((list Advice * option error) * Log) :=
  match ctx_AST ctx with
  | AST_Other => Done (([], Some "failed to convert to Tree"), log)
  | AST_Tree tree =>
      match NewStatusBySQLReviewRuleLevel (Level (Rule ctx)) with
      | Err err => Done (([], Some err), log)
      | Return level =>
          match UnmarshalNamingRulePayloadAsRegexp (Payload (Rule ctx)) with
          | Err err => Done (([], Some err), log)
          | Return (format, maxLength) =>
              let listener :=
                {| level := level; title := Type' (Rule ctx);
                   format := format; maxLength := maxLength;
                   adviceList := [] |} in
              (st <- Walk (listener, log) tree ;;
               Done (generateAdvice (fst st), snd st))%exec
          end
      end
  end.

End WithDeps.

End mssql.

(** ** A concrete environment

    To run the advisor on the scenarios of the specification the
    dependencies are instantiated: regular expressions over a fragment of
    Go's syntax (literals, [.], classes, groups, [|], [*], [+], [?], [^]
    and [$]) with the unanchored search of [MatchString], [strconv.Quote]
    on ASCII text, the rule levels, and a payload made of the format source
    and the maximum length, of which 0 stands for the default limit. The
    parser of the fragment stands for [regexp.Compile] on the formats used
    below only: it is not Go's parser on other sources, and the text of its
    error is its own. The general theorems do not depend on this
    environment. *)

Module sample.

Inductive re : Type :=
| Empty
| Lit (c : ascii)
| AnyChar
| Class (negated : bool) (ranges : list (ascii * ascii))
| Bol
| Eol
| Cat (a b : re)
| Alt (a b : re)
| Star (a : re)
| Plus (a : re)
| Opt (a : re).

Definition in_ranges (c : ascii) (ranges : list (ascii * ascii)) : bool :=
  existsb (fun r => (nat_of_ascii (fst r) <=? nat_of_ascii c)%nat
                    && (nat_of_ascii c <=? nat_of_ascii (snd r))%nat) ranges.

(** One character at position [i], when it satisfies [p]. *)
Definition step_char (p : ascii -> bool) (s : list ascii) (i : nat) : list nat :=
  match nth_error s i with
  | Some c => if p c then [S i] else []
  | None => []
  end.

(** [ends r s i]: the positions where a match of [r] starting at position
    [i] of [s] can end. *)
Fixpoint ends (r : re) (s : list ascii) (i : nat) {struct r} : list nat :=
  let star (a : re) (k : nat) (i : nat) : list nat :=
    (fix star (k : nat) (i : nat) {struct k} : list nat :=
       match k with
       | O => [i]
       | S k =>
           i :: flat_map (fun j => if (i <? j)%nat then star k j else [])
                         (ends a s i)
       end) k i in
  match r with
  | Empty => [i]
  | Lit c => step_char (Ascii.eqb c) s i
  | AnyChar => step_char (fun c => negb (Ascii.eqb c "010"%char)) s i
  | Class negated ranges =>
      step_char (fun c => xorb negated (in_ranges c ranges)) s i
  | Bol => if (i =? 0)%nat then [i] else []
  | Eol => if (i =? length s)%nat then [i] else []
  | Cat a b => flat_map (ends b s) (ends a s i)
  | Alt a b => (ends a s i ++ ends b s i)%list
  | Star a => star a (S (length s)) i
  | Plus a => flat_map (star a (S (length s))) (ends a s i)
  | Opt a => i :: ends a s i
  end.

(** The search of [MatchString]: a match starting anywhere. *)
Definition search (r : re) (s : string) : bool :=
  let cs := list_ascii_of_string s in
  existsb (fun i => match ends r cs i with [] => false | _ => true end)
          (seq 0 (S (length cs))).

(** A match of the whole string. *)
Definition full_match (r : re) (s : string) : bool :=
  let cs := list_ascii_of_string s in
  existsb (Nat.eqb (length cs)) (ends r cs 0).
(** *** Reading an expression from its source text *)

Definition is_meta (c : ascii) : bool :=
  existsb (Ascii.eqb c)
    ["("; ")"; "["; "]"; "{"; "}"; "|"; "*"; "+"; "?"; "^"; "$"; "."; "092"]%char.

(** An escape: a quoted punctuation character or a Perl class. *)
Definition parse_escape (c : ascii) : option re :=
  if Ascii.eqb c "d" then Some (Class false [("0", "9")]%char)
  else if Ascii.eqb c "w"
  then Some (Class false [("0", "9"); ("A", "Z"); ("_", "_"); ("a", "z")]%char)
  else if in_ranges c [("0", "9"); ("A", "Z"); ("a", "z")]%char then None
  else Some (Lit c).

(** The items of a bracket expression up to the closing bracket. *)
Fixpoint parse_class_items (s : list ascii) (acc : list (ascii * ascii))
  : option (list (ascii * ascii) * list ascii) :=
  match s with
  | [] => None
  | c :: rest =>
      if Ascii.eqb c "]" then
        match acc with [] => None | _ => Some (rev acc, rest) end
      else if Ascii.eqb c "092" then None
      else
        match rest with
        | d :: hi :: rest' =>
            if Ascii.eqb d "-" && negb (Ascii.eqb hi "]") then
              if (nat_of_ascii c <=? nat_of_ascii hi)%nat
              then parse_class_items rest' ((c, hi) :: acc)
              else None
            else parse_class_items rest ((c, c) :: acc)
        | _ => parse_class_items rest ((c, c) :: acc)
        end
  end.

Definition parse_class (s : list ascii) : option (re * list ascii) :=
  match s with
  | c :: rest =>
      if Ascii.eqb c "^" then
        match parse_class_items rest [] with
        | Some (rs, rest') => Some (Class true rs, rest')
        | None => None
        end
      else
        match parse_class_items s [] with
        | Some (rs, rest') => Some (Class false rs, rest')
        | None => None
        end
  | [] => None
  end.

(** The repetition operators that follow an atom. *)
Fixpoint parse_postfix (e : re) (s : list ascii) : re * list ascii :=
  match s with
  | c :: rest =>
      if Ascii.eqb c "*" then parse_postfix (Star e) rest
      else if Ascii.eqb c "+" then parse_postfix (Plus e) rest
      else if Ascii.eqb c "?" then parse_postfix (Opt e) rest
      else (e, s)
  | [] => (e, s)
  end.

Fixpoint parse_alt (fuel : nat) (s : list ascii) {struct fuel}
  : option (re * list ascii) :=
  match fuel with
  | O => None
  | S fuel =>
      match parse_cat fuel s with
      | Some (e, rest) =>
          match rest with
          | c :: rest' =>
              if Ascii.eqb c "|" then
                match parse_alt fuel rest' with
                | Some (e', rest'') => Some (Alt e e', rest'')
                | None => None
                end
              else Some (e, rest)
          | [] => Some (e, rest)
          end
      | None => None
      end
  end
with parse_cat (fuel : nat) (s : list ascii) {struct fuel}
  : option (re * list ascii) :=
  match fuel with
  | O => None
  | S fuel =>
      match s with
      | [] => Some (Empty, s)
      | c :: _ =>
          if Ascii.eqb c ")" || Ascii.eqb c "|" then Some (Empty, s)
          else
            match parse_atom fuel s with
            | Some (a, rest) =>
                let '(e, rest) := parse_postfix a rest in
                match parse_cat fuel rest with
                | Some (Empty, rest') => Some (e, rest')
                | Some (e', rest') => Some (Cat e e', rest')
                | None => None
                end
            | None => None
            end
      end
  end
with parse_atom (fuel : nat) (s : list ascii) {struct fuel}
  : option (re * list ascii) :=
  match fuel with
  | O => None
  | S fuel =>
      match s with
      | [] => None
      | c :: rest =>
          if Ascii.eqb c "(" then
            match parse_alt fuel rest with
            | Some (e, d :: rest') =>
                if Ascii.eqb d ")" then Some (e, rest') else None
            | _ => None
            end
          else if Ascii.eqb c "[" then parse_class rest
          else if Ascii.eqb c "^" then Some (Bol, rest)
          else if Ascii.eqb c "$" then Some (Eol, rest)
          else if Ascii.eqb c "." then Some (AnyChar, rest)
          else if Ascii.eqb c "092" then
            match rest with
            | d :: rest' =>
                match parse_escape d with
                | Some e => Some (e, rest')
                | None => None
                end
            | [] => None
            end
          else if is_meta c then None
          else Some (Lit c, rest)
      end
  end.

(** [regexp.Compile] on the fragment: the expression keeps its source. *)
Record Regexp : Type := {
  source : string;
  expr : re
}.

Definition Compile (src : string) : GoResult Regexp :=
  let cs := list_ascii_of_string src in
  match parse_alt (3 * length cs + 3) cs with
  | Some (e, []) => Return {| source := src; expr := e |}
  | _ => Err ("error parsing regexp: " +:+ src)
  end.

(** *** [strconv.Quote] on ASCII text *)

Definition hex_digit (n : nat) : ascii :=
  nth n ["0"; "1"; "2"; "3"; "4"; "5"; "6"; "7"; "8"; "9";
         "a"; "b"; "c"; "d"; "e"; "f"]%char "0"%char.

Definition backslash : ascii := "092"%char.
Definition double_quote : ascii := "034"%char.

Definition quote_char (c : ascii) : string :=
  let n := nat_of_ascii c in
  let esc (e : ascii) := String backslash (String e EmptyString) in
  if Ascii.eqb c double_quote || Ascii.eqb c backslash then esc c
  else if (32 <=? n)%nat && (n <? 127)%nat then String c EmptyString
  else if (n =? 7)%nat then esc "a"%char
  else if (n =? 8)%nat then esc "b"%char
  else if (n =? 12)%nat then esc "f"%char
  else if (n =? 10)%nat then esc "n"%char
  else if (n =? 13)%nat then esc "r"%char
  else if (n =? 9)%nat then esc "t"%char
  else if (n =? 11)%nat then esc "v"%char
  else String backslash
         (String "x"%char (String (hex_digit (n / 16)) (String (hex_digit (n mod 16)) EmptyString))).

Definition Quote (s : string) : string :=
  String double_quote
    (String.concat EmptyString (map quote_char (list_ascii_of_string s))
     +:+ String double_quote EmptyString).

(** *** The rule as stored *)

Inductive SQLReviewRuleLevel : Type := LevelError | LevelWarning | LevelDisabled.

Definition NewStatusBySQLReviewRuleLevel (level : SQLReviewRuleLevel)
  : GoResult advisor.Status :=
  match level with
  | LevelError => Return advisor.Error
  | LevelWarning => Return advisor.Warn
  | LevelDisabled => Err "unexpected rule level type: DISABLED"
  end.

Record NamingRulePayload : Type := {
  Format : string;
  MaxLength : Z
}.

(** The limit a maximum of 0 stands for. *)
Definition default_length_limit : Z := 63.

(** The decoder of the payload: the format is compiled, and a maximum of 0
    is replaced by the default limit. *)
Definition UnmarshalNamingRulePayloadAsRegexp (p : NamingRulePayload)
  : GoResult (Regexp * Z) :=
  match Compile (Format p) with
  | Return re =>
      Return (re, if MaxLength p =? 0 then default_length_limit else MaxLength p)
  | Err err => Err err
  end.

(** An identifier is its text; a nil identifier does not normalise. *)
Definition NormalizedTSqlTableNamePart (id : option string) : GoResult string :=
  match id with
  | Some text => Return text
  | None => Err "nil identifier"
  end.

#[global] Instance deps : Deps :=
  Build_Deps SQLReviewRuleLevel NamingRulePayload Regexp string
    NewStatusBySQLReviewRuleLevel UnmarshalNamingRulePayloadAsRegexp
    (fun r s => search (expr r) s) source Quote NormalizedTSqlTableNamePart.

End sample.

(** ** [frontend/src/types/sqlReview.ts]: rule templates and stored rules *)

Module sqlReview.

(** The JavaScript values a payload holds. Numbers are the integers the
    rule catalog uses. *)
Inductive JsValue : Type :=
| JUndefined
| JNull
| JBool (b : bool)
| JNumber (n : Z)
| JString (s : string)
| JArray (l : list string).

#[global] Instance JsValue_eq_dec : EqDecision JsValue.
Proof. solve_decision. Defined.

(** [a ?? b] *)
Definition nullish (a b : JsValue) : JsValue :=
  match a with
  | JUndefined | JNull => b
  | _ => a
  end.

(** The truth value of [v] in a condition; [!v] is its negation. *)
Definition truthy (v : JsValue) : bool :=
  match v with
  | JUndefined | JNull => false
  | JBool b => b
  | JNumber n => negb (n =? 0)
  | JString s => negb (String.eqb s EmptyString)
  | JArray _ => true
  end.

(** A stored payload is a plain object; reading a key it lacks gives
    [undefined]. *)
Abbreviation JsObject := (gmap string JsValue).

Definition get (o : JsObject) (k : string) : JsValue :=
  match o !! k with
  | Some v => v
  | None => JUndefined
  end.

(** The [type] tag of the five component payloads. *)
Inductive PayloadType : Type := STRING | NUMBER | BOOLEAN | TEMPLATE | STRING_ARRAY.

#[global] Instance PayloadType_eq_dec : EqDecision PayloadType.
Proof. solve_decision. Defined.

(** [StringPayload], [NumberPayload], [BooleanPayload], [StringArrayPayload]
    and [TemplatePayload]: the tag, the default, the optional current value
    ([JUndefined] when it is not set) and, for a template, its list. *)
Record ComponentPayload : Type := {
  payload_type : PayloadType;
  payload_default : JsValue;
  payload_value : JsValue;
  templateList : option (list string)
}.

(** [{ ...p, value: v }] *)
Definition with_value (p : ComponentPayload) (v : JsValue) : ComponentPayload :=
  {| payload_type := payload_type p; payload_default := payload_default p;
     payload_value := v; templateList := templateList p |}.

Record RuleConfigComponent : Type := {
  key : string;
  component_payload : ComponentPayload
}.

(** [{ ...c, payload: p }] *)
Definition with_payload (c : RuleConfigComponent) (p : ComponentPayload)
  : RuleConfigComponent :=
  {| key := key c; component_payload := p |}.

Inductive SQLReviewRuleLevel : Type :=
| LEVEL_UNSPECIFIED
| ERROR
| WARNING
| DISABLED
| UNRECOGNIZED.

(** [Engine], by the number of the enumeration. *)
Definition Engine := Z.

Record SchemaPolicyRule : Type := {
  rule_type : string;
  rule_level : SQLReviewRuleLevel;
  rule_engine : Engine;
  rule_payload : option JsObject;
  rule_comment : string
}.

Record RuleTemplateV2 : Type := {
  type : string;
  category : string;
  engine : Engine;
  level : SQLReviewRuleLevel;
  componentList : list RuleConfigComponent;
  comment : option string
}.

(** [{ ...res, componentList: l }] *)
Definition with_componentList (t : RuleTemplateV2) (l : list RuleConfigComponent)
  : RuleTemplateV2 :=
  {| type := type t; category := category t; engine := engine t;
     level := level t; componentList := l; comment := comment t |}.

(** [{ ...base, payload: p }] *)
Definition with_rule_payload (r : SchemaPolicyRule) (p : JsObject) : SchemaPolicyRule :=
  {| rule_type := rule_type r; rule_level := rule_level r;
     rule_engine := rule_engine r; rule_payload := Some p;
     rule_comment := rule_comment r |}.

(** A call that returns or throws [new Error(msg)]. *)
Inductive JsResult (A : Type) : Type :=
| Value (a : A)
| Throw (msg : string).
Arguments Value {A} a.
Arguments Throw {A} msg.

(** [componentList.find((c) => c.payload.type === ty)] *)
Definition find_component (ty : PayloadType) (l : list RuleConfigComponent)
  : option RuleConfigComponent :=
  List.find (fun c => bool_decide (payload_type (component_payload c) = ty)) l.

(** A [case] label list of the [switch] on the rule type. *)
Definition case_of (ty : string) (labels : list string) : bool :=
  existsb (String.eqb ty) labels.

Definition string_array_rules : list string :=
  [ "column.type-disallow-list"; "index.primary-key-type-allowlist";
    "index.type-allow-list"; "system.charset.allowlist";
    "system.collation.allowlist"; "system.function.disallowed-list";
    "table.disallow-dml"; "table.disallow-ddl" ].

Definition number_rules : list string :=
  [ "statement.insert.row-limit"; "statement.affected-row-limit";
    "column.maximum-character-length"; "column.maximum-varchar-length";
    "column.auto-increment-initial-value"; "index.key-number-limit";
    "index.total-number-limit"; "system.comment.length";
    "advice.online-migration"; "table.text-fields-total-length";
    "table.limit-size"; "statement.where.maximum-logical-operator-count";
    "statement.maximum-limit-value"; "statement.maximum-join-table-count";
    "statement.maximum-statements-in-transaction" ].

Definition invalid_rule (ty : string) : string := "Invalid rule " +:+ ty.

(** [{ ...c, payload: { ...c.payload, value: v } }] *)
Definition overlay (c : RuleConfigComponent) (v : JsValue) : RuleConfigComponent :=
  with_payload c (with_value (component_payload c) v).

(** [convertPolicyRuleToRuleTemplate] *)
Definition convertPolicyRuleToRuleTemplate
  (policyRule : SchemaPolicyRule) (ruleTemplate : RuleTemplateV2)
  : JsResult RuleTemplateV2 :=
  if negb (String.eqb (rule_type policyRule) (type ruleTemplate)) then
    Throw ("The rule type is not same. policyRule:" +:+ type ruleTemplate
           +:+ ", ruleTemplate:" +:+ type ruleTemplate)
  else
  let res :=
    {| type := type ruleTemplate; category := category ruleTemplate;
       engine := rule_engine policyRule; level := rule_level policyRule;
       componentList := componentList ruleTemplate;
       comment := Some (rule_comment policyRule) |} in
  let componentList := componentList ruleTemplate in
  if (length componentList =? 0)%nat then Value res else
  let payload := match rule_payload policyRule with Some p => p | None => ∅ end in
  let stringComponent := find_component STRING componentList in
  let numberComponent := find_component NUMBER componentList in
  let booleanComponent := find_component BOOLEAN componentList in
  let templateComponent := find_component TEMPLATE componentList in
  let stringArrayComponent := find_component STRING_ARRAY componentList in
  let ty := type ruleTemplate in
  if case_of ty ["statement.query.minimum-plan-level"] then
    match stringComponent with
    | None => Throw (invalid_rule ty)
    | Some sc =>
        Value (with_componentList res [overlay sc (get payload "string")])
    end
  else if case_of ty ["table.drop-naming-convention"] then
    match stringComponent with
    | None => Throw (invalid_rule ty)
    | Some sc =>
        Value (with_componentList res [overlay sc (get payload "format")])
    end
  else if case_of ty ["naming.column"; "naming.column.auto-increment"; "naming.table"] then
    match stringComponent, numberComponent with
    | Some sc, Some nc =>
        Value (with_componentList res
                 [overlay sc (get payload "format");
                  overlay nc (get payload "maxLength")])
    | _, _ => Throw (invalid_rule ty)
    end
  else if case_of ty ["naming.index.pk"] then
    match templateComponent with
    | None => Throw (invalid_rule ty)
    | Some tc =>
        Value (with_componentList res [overlay tc (get payload "format")])
    end
  else if case_of ty ["naming.index.idx"; "naming.index.uk"; "naming.index.fk"] then
    match templateComponent, numberComponent with
    | Some tc, Some nc =>
        Value (with_componentList res
                 [overlay tc (get payload "format");
                  overlay nc (get payload "maxLength")])
    | _, _ => Throw (invalid_rule ty)
    end
  else if case_of ty ["naming.identifier.case"] then
    match booleanComponent with
    | None => Throw (invalid_rule ty)
    | Some bc =>
        Value (with_componentList res [with_payload bc (component_payload bc)])
    end
  else if case_of ty ["column.required"] then
    match componentList with
    | requiredColumnComponent :: _ =>
        let value := get payload "columnList" in
        let value := if negb (truthy value) then get payload "list" else value in
        Value (with_componentList res [overlay requiredColumnComponent value])
    | [] => Throw "Cannot read properties of undefined (reading 'payload')"
    end
  else if case_of ty string_array_rules then
    match stringArrayComponent with
    | None => Throw (invalid_rule ty)
    | Some ac =>
        Value (with_componentList res [overlay ac (get payload "list")])
    end
  else if case_of ty ["column.comment"; "table.comment"] then
    match booleanComponent, numberComponent with
    | Some bc, Some nc =>
        Value (with_componentList res
                 [overlay bc (get payload "required");
                  overlay nc (get payload "maxLength")])
    | _, _ => Throw (invalid_rule ty)
    end
  else if case_of ty number_rules then
    match numberComponent with
    | None => Throw (invalid_rule ty)
    | Some nc =>
        Value (with_componentList res [overlay nc (get payload "number")])
    end
  else Throw (invalid_rule ty).

(** [p.value ?? p.default] *)
Definition current (p : ComponentPayload) : JsValue :=
  nullish (payload_value p) (payload_default p).

(** [componentList.find((c) => c.payload.type === ty)?.payload] *)
Definition find_payload (ty : PayloadType) (l : list RuleConfigComponent)
  : option ComponentPayload :=
  match find_component ty l with
  | Some c => Some (component_payload c)
  | None => None
  end.

(** [mergeIndividualConfigAsRule] *)
Definition mergeIndividualConfigAsRule
  (base : SchemaPolicyRule) (template : RuleTemplateV2) : JsResult SchemaPolicyRule :=
  let componentList := componentList template in
  let stringPayload := find_payload STRING componentList in
  let numberPayload := find_payload NUMBER componentList in
  let templatePayload := find_payload TEMPLATE componentList in
  let booleanPayload := find_payload BOOLEAN componentList in
  let stringArrayPayload := find_payload STRING_ARRAY componentList in
  let ty := type template in
  if case_of ty ["statement.query.minimum-plan-level"] then
    match stringPayload with
    | None => Throw (invalid_rule ty)
    | Some sp => Value (with_rule_payload base {[ "string" := current sp ]})
    end
  else if case_of ty ["table.drop-naming-convention"] then
    match stringPayload with
    | None => Throw (invalid_rule ty)
    | Some sp => Value (with_rule_payload base {[ "format" := current sp ]})
    end
  else if case_of ty ["naming.column"; "naming.column.auto-increment"; "naming.table"] then
    match stringPayload, numberPayload with
    | Some sp, Some np =>
        Value (with_rule_payload base
                 (<["format" := current sp]> {[ "maxLength" := current np ]}))
    | _, _ => Throw (invalid_rule ty)
    end
  else if case_of ty ["naming.index.pk"] then
    match templatePayload with
    | None => Throw (invalid_rule ty)
    | Some tp => Value (with_rule_payload base {[ "format" := current tp ]})
    end
  else if case_of ty ["naming.index.idx"; "naming.index.uk"; "naming.index.fk"] then
    match templatePayload, numberPayload with
    | Some tp, Some np =>
        Value (with_rule_payload base
                 (<["format" := current tp]> {[ "maxLength" := current np ]}))
    | _, _ => Throw (invalid_rule ty)
    end
  else if case_of ty ["naming.identifier.case"] then
    match booleanPayload with
    | None => Throw (invalid_rule ty)
    | Some bp => Value (with_rule_payload base {[ "upper" := current bp ]})
    end
  else if case_of ty ("column.required" :: string_array_rules) then
    match stringArrayPayload with
    | None => Throw (invalid_rule ty)
    | Some ap => Value (with_rule_payload base {[ "list" := current ap ]})
    end
  else if case_of ty ["column.comment"; "table.comment"] then
    match booleanPayload, numberPayload with
    | Some bp, Some np =>
        Value (with_rule_payload base
                 (<["required" := current bp]> {[ "maxLength" := current np ]}))
    | _, _ => Throw (invalid_rule ty)
    end
  else if case_of ty number_rules then
    match numberPayload with
    | None => Throw (invalid_rule ty)
    | Some np => Value (with_rule_payload base {[ "number" := current np ]})
    end
  else Throw (invalid_rule ty).

(** [convertRuleTemplateToPolicyRule] *)
Definition convertRuleTemplateToPolicyRule (rule : RuleTemplateV2)
  : JsResult SchemaPolicyRule :=
  let base :=
    {| rule_type := type rule; rule_level := level rule;
       rule_engine := engine rule; rule_payload := None;
       rule_comment := match comment rule with Some c => c | None => EmptyString end |} in
  if (length (componentList rule) =? 0)%nat then Value base
  else mergeIndividualConfigAsRule base rule.

End sqlReview.

(** ** Notions the properties are stated with *)

Module naming.

Import advisor.
Import mssql.

Section WithDeps.
Context `{Deps}.

(** The listener with other advices. *)
Definition with_advices (l : namingTableListener) (advices : list Advice)
  : namingTableListener :=
  {| level := level l; title := title l; format := format l;
     maxLength := maxLength l; adviceList := advices |}.

(** The advice for a name that does not match the format. *)
Definition format_advice (l : namingTableListener) (name : string) (line : Z) : Advice :=
  {| Status' := level l;
     Code' := NamingTableConventionMismatch;
     Title := title l;
     Content := name +:+ " mismatches table naming convention, naming format should be "
                     +:+ Quote (Regexp_String (format l));
     Line := line |}.

(** The advice for a name that is too long. *)
Definition length_advice (l : namingTableListener) (name : string) (line : Z) : Advice :=
  {| Status' := level l;
     Code' := NamingTableConventionMismatch;
     Title := title l;
     Content := name +:+ " mismatches table naming convention, its length should be within "
                     +:+ itoa (maxLength l) +:+ " characters";
     Line := line |}.

(** The advices a name gets: the format advice when the search fails, then
    the length advice when a positive maximum is exceeded. *)
Definition name_advices (l : namingTableListener) (name : string) (line : Z)
  : list Advice :=
  ((if MatchString (format l) name then [] else [format_advice l name line])
   ++ (if (0 <? maxLength l) && (maxLength l <? len name)
       then [length_advice l name line] else []))%list.

(** The new name of a rename: the literal without one pair of quotes. *)
Definition unquote (text : string) : exec string :=
  if HasPrefix text "'" && HasSuffix text "'"
  then slice text 1 (len text - 1)
  else Done text.

(** The single advice of a check that found nothing. *)
Definition ok_advice : Advice :=
  {| Status' := Success; Code' := Ok; Title := "OK"; Content := EmptyString; Line := 0 |}.

(** A literal of a call, when the argument is an unnamed string constant. *)
Definition string_literal (a : parser.Execute_statement_argContext) : option string :=
  match parser.Execute_statement_arg_unnamed a with
  | Some u =>
      match parser.Execute_parameter u with
      | Some p =>
          match parser.Constant p with
          | Some c => parser.STRING c
          | None => None
          end
      | None => None
      end
  | None => None
  end.

(** The procedure identifier of a call whose name has the whole chain of
    sub-nodes and no schema. *)
Definition unqualified_procedure (ctx : parser.Execute_bodyContext)
  : option (option Id_Context) :=
  match parser.Func_proc_name_server_database_schema ctx with
  | Some a =>
      match parser.Func_proc_name_database_schema a with
      | Some b =>
          match parser.Func_proc_name_schema b with
          | Some c =>
              match parser.GetSchema c with
              | Some _ => None
              | None => Some (parser.GetProcedure c)
              end
          | None => None
          end
      | None => None
      end
  | None => None
  end.

(** The text of the new name: the call has a first argument that is a
    string literal and holds exactly one further argument, a string
    literal too. *)
Definition new_name_literal (ctx : parser.Execute_bodyContext) : option string :=
  match parser.Execute_statement_arg ctx with
  | Some first =>
      match string_literal first, parser.AllExecute_statement_arg first with
      | Some _, [second] => string_literal second
      | _, _ => None
      end
  | None => None
  end.






(** An unnamed string-literal argument holding the arguments [rest]. *)
Definition literal_arg (text : string) (rest : list parser.Execute_statement_argContext)
  : parser.Execute_statement_argContext :=
  parser.Build_Execute_statement_argContext
    (Some {| parser.Execute_parameter :=
               Some {| parser.Constant := Some {| parser.STRING := Some text |} |} |})
    rest.

(** A call of the unqualified procedure [proc] on [first]. *)
Definition call (proc : Id_Context) (first : option parser.Execute_statement_argContext)
  (line : Z) : parser.Execute_bodyContext :=
  {| parser.Func_proc_name_server_database_schema :=
       Some {| parser.Func_proc_name_database_schema :=
                 Some {| parser.Func_proc_name_schema :=
                           Some {| parser.GetSchema := None;
                                   parser.GetProcedure := Some proc |} |} |};
     parser.Execute_statement_arg := first;
     parser.Execute_body_Line := line |}.

(** The rename call with the two literals [old] and [new]. *)
Definition rename_call (proc : Id_Context) (old new : string) (line : Z)
  : parser.Execute_bodyContext :=
  call proc (Some (literal_arg old [literal_arg new []])) line.

(** A create-table node declaring [name]. *)
Definition create_table (name : string) (line : Z) : parser.Create_tableContext :=
  {| parser.Table_name := Some {| parser.GetTable := Some name |};
     parser.Create_table_Line := line |}.

(** Trees on which no handler dereferences nil or slices out of range: a
    create-table node has its table identifier, and the new-name literal of
    a call is not the lone quote. *)
Definition rule_ok (ctx : parser.RuleContext) : bool :=
  match ctx with
  | parser.Create_table c =>
      match parser.Table_name c with
      | Some tn => match parser.GetTable tn with Some _ => true | None => false end
      | None => false
      end
  | parser.Execute_body c =>
      match new_name_literal c with
      | Some text => negb (String.eqb text "'")
      | None => true
      end
  | parser.OtherRule => true
  end.

Fixpoint tree_ok (t : parser.Tree) : bool :=
  match t with
  | parser.RuleNode ctx children => rule_ok ctx && forallb tree_ok children
  | _ => true
  end.

Definition context_ok (ctx : Context') : bool :=
  match ctx_AST ctx with
  | AST_Tree tree => tree_ok tree
  | AST_Other => true
  end.

(** The listener [Check] starts the walk with. *)
Definition new_listener (lv : Status) (ti : string) (re : Regexp) (n : Z)
  : namingTableListener :=
  {| level := lv; title := ti; format := re; maxLength := n; adviceList := [] |}.

End WithDeps.

End naming.

(** ** The scenarios of the specification, as inputs *)

Module scenario.

Import mssql.
Import naming.

(** The format of the scenarios: lower-case words joined by underscores. *)
Definition snake : string := "^[a-z]+(_[a-z]+)*$".

(** What [%q] makes of the format of the scenarios. *)
Definition quoted_snake : string :=
  String "034" ("^[a-z]+(_[a-z]+)*$" +:+ String "034" EmptyString).

(** A format without anchors. *)
Definition lower_word : string := "[a-z]+".

Definition compiled (src : string) : sample.Regexp :=
  match sample.Compile src with
  | Return re => re
  | Err _ => {| sample.source := src; sample.expr := sample.Empty |}
  end.

(** The table-naming rule at level Warning with the given payload. *)
Definition rule (fmt : string) (n : Z) : SQLReviewRule :=
  {| Type' := "naming.table";
     Level := sample.LevelWarning;
     Payload := {| sample.Format := fmt; sample.MaxLength := n |} |}.

Definition context (tree : parser.Tree) (fmt : string) (n : Z) : Context' :=
  {| ctx_AST := AST_Tree tree; Rule := rule fmt n |}.

(** The listener [Check] builds for that rule. *)
Definition listener (fmt : string) (n : Z) : namingTableListener :=
  new_listener advisor.Warn "naming.table" (compiled fmt) n.

(** A statement under the root of its tree, followed by the end of file. *)
Definition statement_tree (ctx : parser.RuleContext) : parser.Tree :=
  parser.RuleNode parser.OtherRule
    [parser.RuleNode ctx [parser.RuleNode parser.OtherRule [parser.TerminalNode]];
     parser.TerminalNode].

(** Scenario A: [CREATE TABLE UserOrders (...)]. *)
Definition tree_A : parser.Tree :=
  statement_tree (parser.Create_table (create_table "UserOrders" 1)).

(** Scenario B: [CREATE TABLE orders_history (...)]. *)
Definition tree_B : parser.Tree :=
  statement_tree (parser.Create_table (create_table "orders_history" 1)).

(** Scenario C: [EXEC sp_rename 'dbo.Old_Table', 'NewTable']. *)
Definition call_C : parser.Execute_bodyContext :=
  rename_call "sp_rename" "'dbo.Old_Table'" "'NewTable'" 1.

Definition tree_C : parser.Tree := statement_tree (parser.Execute_body call_C).

(** Scenario D: a rename call with three literals, the second and the
    third both held by the first. *)
Definition call_D : parser.Execute_bodyContext :=
  call "sp_rename"
    (Some (literal_arg "'dbo.Old_Table'"
             [literal_arg "'NewTable'" []; literal_arg "'OBJECT'" []])) 1.

Definition tree_D : parser.Tree := statement_tree (parser.Execute_body call_D).

(** The same three literals, each argument holding the one that follows. *)
Definition call_D_nested : parser.Execute_bodyContext :=
  call "sp_rename"
    (Some (literal_arg "'dbo.Old_Table'"
             [literal_arg "'NewTable'" [literal_arg "'OBJECT'" []]])) 1.

Definition tree_D_nested : parser.Tree :=
  statement_tree (parser.Execute_body call_D_nested).


(** A name that is both badly formed and too long for a maximum of 5. *)
Definition long_bad_name : string := "UserOrders".

(** The create-table node of scenario A alone, and then under one more
    node and beside an error node. *)
Definition tree_A_alone : parser.Tree :=
  parser.RuleNode (parser.Create_table (create_table "UserOrders" 1)) [].

Definition tree_A_below : parser.Tree :=
  parser.RuleNode parser.OtherRule
    [parser.ErrorNode;
     parser.RuleNode parser.OtherRule [tree_A_alone; parser.TerminalNode]].

(** A create-table node whose name has no table identifier. *)
Definition tree_without_table : parser.Tree :=
  statement_tree
    (parser.Create_table
       {| parser.Table_name := Some {| parser.GetTable := None |};
          parser.Create_table_Line := 1 |}).

(** The advices of the scenarios. *)
Definition format_finding (name : string) : advisor.Advice :=
  {| advisor.Status' := advisor.Warn;
     advisor.Code' := advisor.NamingTableConventionMismatch;
     advisor.Title := "naming.table";
     advisor.Content :=
       name +:+ " mismatches table naming convention, naming format should be "
            +:+ quoted_snake;
     advisor.Line := 1 |}.

Definition length_finding (name : string) (n : string) : advisor.Advice :=
  {| advisor.Status' := advisor.Warn;
     advisor.Code' := advisor.NamingTableConventionMismatch;
     advisor.Title := "naming.table";
     advisor.Content :=
       name +:+ " mismatches table naming convention, its length should be within "
            +:+ n +:+ " characters";
     advisor.Line := 1 |}.

End scenario.

(** ** The conversion table, as the properties read it *)

Module conversion.

Import sqlReview.

(** The stored payload of each rule type: its keys, each with the kind of
    the component that carries it. The rows follow the [case] groups of
    the two conversions and the payload interfaces
    ([StringValuePayload], [NamingFormatPayload], [CasePayload],
    [StringArrayLimitPayload], [CommentFormatPayload],
    [NumberValuePayload]). *)
Definition payload_fields (ty : string) : option (list (string * PayloadType)) :=
  if case_of ty ["statement.query.minimum-plan-level"] then
    Some [("string", STRING)]
  else if case_of ty ["table.drop-naming-convention"] then
    Some [("format", STRING)]
  else if case_of ty ["naming.column"; "naming.column.auto-increment"; "naming.table"] then
    Some [("format", STRING); ("maxLength", NUMBER)]
  else if case_of ty ["naming.index.pk"] then
    Some [("format", TEMPLATE)]
  else if case_of ty ["naming.index.idx"; "naming.index.uk"; "naming.index.fk"] then
    Some [("format", TEMPLATE); ("maxLength", NUMBER)]
  else if case_of ty ["naming.identifier.case"] then
    Some [("upper", BOOLEAN)]
  else if case_of ty ("column.required" :: string_array_rules) then
    Some [("list", STRING_ARRAY)]
  else if case_of ty ["column.comment"; "table.comment"] then
    Some [("required", BOOLEAN); ("maxLength", NUMBER)]
  else if case_of ty number_rules then
    Some [("number", NUMBER)]
  else None.

(** The components a rule type requires; [None] for a rule type outside
    the table. *)
Definition required_components (ty : string) : option (list PayloadType) :=
  option_map (map snd) (payload_fields ty).

Definition has_component (k : PayloadType) (l : list RuleConfigComponent) : bool :=
  match find_component k l with
  | Some _ => true
  | None => false
  end.

(** The template lacks a required component, or its rule type is outside
    the table. *)
Definition misconfigured (t : RuleTemplateV2) : bool :=
  match required_components (type t) with
  | None => true
  | Some kinds => negb (forallb (fun k => has_component k (componentList t)) kinds)
  end.

(** The value of a component of kind [k]. *)
Definition has_kind (k : PayloadType) (v : JsValue) : bool :=
  match k, v with
  | STRING, JString _ => true
  | TEMPLATE, JString _ => true
  | NUMBER, JNumber _ => true
  | BOOLEAN, JBool _ => true
  | STRING_ARRAY, JArray _ => true
  | _, _ => false
  end.

(** A stored payload with exactly the keys of its rule type, each holding
    a value of its kind. *)
Definition payload_ok (fields : list (string * PayloadType)) (p : JsObject) : bool :=
  bool_decide (dom p = list_to_set (map fst fields))
  && forallb (fun f => match p !! fst f with
                       | Some v => has_kind (snd f) v
                       | None => false
                       end) fields.

(** The first component of a template for [column.required] is the list. *)
Definition head_ok (t : RuleTemplateV2) : bool :=
  if String.eqb (type t) "column.required" then
    match componentList t with
    | c :: _ => bool_decide (payload_type (component_payload c) = STRING_ARRAY)
    | [] => true
    end
  else true.

(** A stored rule that is well formed for the template of its type: the
    types agree; a rule whose template has no component stores no payload;
    otherwise the rule type is in the table, the payload has its fields and
    the template has the components that carry them. *)
Definition well_formed (r : SchemaPolicyRule) (t : RuleTemplateV2) : bool :=
  String.eqb (rule_type r) (type t)
  && match componentList t with
     | [] => match rule_payload r with None => true | Some _ => false end
     | _ :: _ =>
         match payload_fields (type t), rule_payload r with
         | Some fields, Some p =>
             payload_ok fields p
             && forallb (fun f => has_component (snd f) (componentList t)) fields
             && head_ok t
         | _, _ => false
         end
     end.

(** *** Sample templates and rules *)

Definition component (k : string) (ty : PayloadType) (default : JsValue)
  : RuleConfigComponent :=
  {| key := k;
     component_payload :=
       {| payload_type := ty; payload_default := default;
          payload_value := JUndefined; templateList := None |} |}.

Definition template (ty : string) (components : list RuleConfigComponent)
  : RuleTemplateV2 :=
  {| type := ty; category := "NAMING"; engine := 2; level := WARNING;
     componentList := components; comment := None |}.

Definition stored (ty : string) (payload : option JsObject) : SchemaPolicyRule :=
  {| rule_type := ty; rule_level := ERROR; rule_engine := 2;
     rule_payload := payload; rule_comment := EmptyString |}.

Definition stored_as (ty : string) (lv : SQLReviewRuleLevel)
  (payload : option JsObject) : SchemaPolicyRule :=
  {| rule_type := ty; rule_level := lv; rule_engine := 2;
     rule_payload := payload; rule_comment := EmptyString |}.

(** [naming.identifier.case], lower case by default, stored as upper. *)
Definition case_template : RuleTemplateV2 :=
  template "naming.identifier.case" [component "upper" BOOLEAN (JBool false)].

Definition case_rule : SchemaPolicyRule :=
  stored "naming.identifier.case" (Some {[ "upper" := JBool true ]}).

(** [naming.table] with its two components, and without any. *)
Definition table_template : RuleTemplateV2 :=
  template "naming.table"
    [component "format" STRING (JString "^[a-z]+(_[a-z]+)*$");
     component "maxLength" NUMBER (JNumber 64)].

Definition table_rule : SchemaPolicyRule :=
  stored "naming.table"
    (Some (<["format" := JString "^[A-Z]+$"]> {[ "maxLength" := JNumber 32 ]})).

Definition bare_table_template : RuleTemplateV2 := template "naming.table" [].

(** [naming.table] with the number only. *)
Definition number_only_table_template : RuleTemplateV2 :=
  template "naming.table" [component "maxLength" NUMBER (JNumber 64)].

(** [column.required] whose first component is not a list, and a rule
    stored under the old key as well as the new one. *)
Definition required_template : RuleTemplateV2 :=
  {| type := "column.required"; category := "COLUMN"; engine := 2;
     level := WARNING;
     componentList := [component "limit" NUMBER (JNumber 3)];
     comment := None |}.

Definition required_rule : SchemaPolicyRule :=
  stored "column.required"
    (Some (<["columnList" := JArray ["id"; "created_ts"]]>
             {[ "list" := JArray ["id"] ]})).

(** A rule of [column.required] that holds [v] under the old key and one
    column under the new one. *)
Definition columns_rule (v : JsValue) : SchemaPolicyRule :=
  stored "column.required"
    (Some (<["columnList" := v]> {[ "list" := JArray ["id"] ]})).

(** What [required_template] becomes when its component gets [v]. *)
Definition template_with_value (v : JsValue) : RuleTemplateV2 :=
  {| type := "column.required"; category := "COLUMN"; engine := 2;
     level := ERROR;
     componentList :=
       [ {| key := "limit";
            component_payload :=
              {| payload_type := NUMBER; payload_default := JNumber 3;
                 payload_value := v; templateList := None |} |} ];
     comment := Some EmptyString |}.

(** A rule type outside the table, with a component. *)
Definition unknown_template : RuleTemplateV2 :=
  template "statement.unknown" [component "number" NUMBER (JNumber 1)].

End conversion.

(** ** The walk as a sequence of rule nodes *)

Module traversal.

Import mssql.
Import naming.

Section WithDeps.
Context `{Deps}.

(** The rule nodes of a tree in the order the walker enters them: a node
    before its children, the children from left to right. *)
Fixpoint rule_contexts (t : parser.Tree) : list parser.RuleContext :=
  match t with
  | parser.RuleNode ctx children => ctx :: flat_map rule_contexts children
  | _ => []
  end.

(** Entering the rule nodes of a list one after the other. *)
Fixpoint enter_all (st : state) (ctxs : list parser.RuleContext) : exec state :=
  match ctxs with
  | [] => Done st
  | ctx :: ctxs => exec_bind (EnterRule st ctx) (fun st => enter_all st ctxs)
  end.

(** The nodes the listener reacts to, and among them the calls. *)
Definition is_trigger (ctx : parser.RuleContext) : bool :=
  match ctx with
  | parser.OtherRule => false
  | _ => true
  end.

Definition is_call (ctx : parser.RuleContext) : bool :=
  match ctx with
  | parser.Execute_body _ => true
  | _ => false
  end.

(** [GetStart().GetLine()] of a node the listener reacts to. *)
Definition trigger_line (ctx : parser.RuleContext) : option Z :=
  match ctx with
  | parser.Create_table c => Some (parser.Create_table_Line c)
  | parser.Execute_body c => Some (parser.Execute_body_Line c)
  | parser.OtherRule => None
  end.

(** The nodes on which a handler stops in a panic: a create-table node
    without its table identifier, and a call of [sp_rename] whose new-name
    literal is the lone quote. *)
Definition faulty (ctx : parser.RuleContext) : bool :=
  match ctx with
  | parser.Create_table c =>
      match parser.Table_name c with
      | Some tn => match parser.GetTable tn with Some _ => false | None => true end
      | None => true
      end
  | parser.Execute_body c =>
      match unqualified_procedure c with
      | Some v =>
          match NormalizedTSqlTableNamePart v with
          | Return procedure =>
              String.eqb procedure "sp_rename"
              && match new_name_literal c with
                 | Some text => String.eqb text "'"
                 | None => false
                 end
          | Err _ => false
          end
      | None => false
      end
  | parser.OtherRule => false
  end.

(** An advice of the listener [l] whose line is among [lines]. *)
Definition advice_of (l : namingTableListener) (lines : list (option Z))
  (a : advisor.Advice) : Prop :=
  advisor.Status' a = level l
  /\ advisor.Code' a = advisor.NamingTableConventionMismatch
  /\ advisor.Title a = title l
  /\ In (Some (advisor.Line a)) lines.

(** A line written to the log by the listener. *)
Definition normalize_failure (line : string) : Prop :=
  exists err, line = "failed to normalize procedure name: " +:+ err.

End WithDeps.

End traversal.

(** ** [sqlReview.ts]: localization keys, categories and the template map *)

Module catalog.

Import sqlReview.

(** [s.split(sep)] for a separator of one character: the pieces between
    the separators, one more than there are separators. *)
Fixpoint split (sep : ascii) (s : string) : list string :=
  match s with
  | EmptyString => [EmptyString]
  | String c s' =>
      if Ascii.eqb c sep then EmptyString :: split sep s'
      else
        match split sep s' with
        | piece :: pieces => String c piece :: pieces
        | [] => [String c EmptyString]
        end
  end.

(** [pieces.join(sep)] *)
Definition join (sep : string) (pieces : list string) : string :=
  String.concat sep pieces.

(** [getRuleLocalizationKey] *)
Definition getRuleLocalizationKey (type : string) : string :=
  join "-" (split "." type).

(** Every [a] of a string replaced by [b]. *)
Fixpoint replace_all (a b : ascii) (s : string) : string :=
  match s with
  | EmptyString => EmptyString
  | String c s' => String (if Ascii.eqb c a then b else c) (replace_all a b s')
  end.

(** [RuleCategory] *)
Record RuleCategory : Type := {
  id : string;
  ruleList : list RuleTemplateV2
}.

(** The properties every plain object inherits from [Object.prototype]:
    reading one of them on [{}] gives a function or an object, never
    [undefined]. *)
Definition object_prototype_members : list string :=
  [ "constructor"; "__defineGetter__"; "__defineSetter__"; "hasOwnProperty";
    "__lookupGetter__"; "__lookupSetter__"; "isPrototypeOf";
    "propertyIsEnumerable"; "toString"; "valueOf"; "__proto__";
    "toLocaleString" ].

Definition inherited (k : string) : bool :=
  existsb (String.eqb k) object_prototype_members.

(** The object [dict], by its own properties in the order of their
    creation. *)
Definition Dict : Type := list (string * RuleCategory).

Definition own (dict : Dict) (k : string) : option RuleCategory :=
  match List.find (fun e => String.eqb (fst e) k) dict with
  | Some e => Some (snd e)
  | None => None
  end.

(** [dict[k].ruleList.push(rule)] on an own property [k]. *)
Definition push_rule (dict : Dict) (k : string) (rule : RuleTemplateV2) : Dict :=
  map (fun e =>
         if String.eqb (fst e) k
         then (fst e, {| id := id (snd e);
                         ruleList := (ruleList (snd e) ++ [rule])%list |})
         else e) dict.

(** The body of the [reduce]: the category is created unless [dict] has
    it, and the rule is pushed to its list. A category with the name of an
    inherited property is found without being own and has no [ruleList]:
    the push throws a [TypeError]. *)
Definition category_step (dict : Dict) (rule : RuleTemplateV2) : JsResult Dict :=
  let k := category rule in
  match own dict k with
  | Some _ => Value (push_rule dict k rule)
  | None =>
      if inherited k
      then Throw "Cannot read properties of undefined (reading 'push')"
      else Value (push_rule (dict ++ [(k, {| id := k; ruleList := [] |})])%list k rule)
  end.

Fixpoint reduce_categories (dict : Dict) (rules : list RuleTemplateV2)
  : JsResult Dict :=
  match rules with
  | [] => Value dict
  | rule :: rules =>
      match category_step dict rule with
      | Value dict => reduce_categories dict rules
      | Throw msg => Throw msg
      end
  end.

(** An array index: the decimal numeral, without a leading zero, of a
    number below [2^32 - 1]. *)
Definition digit (c : ascii) : option N :=
  let n := N_of_ascii c in
  if (48 <=? n)%N && (n <=? 57)%N then Some (n - 48)%N else None.

Fixpoint digits_value (s : string) (acc : N) : option N :=
  match s with
  | EmptyString => Some acc
  | String c s' =>
      match digit c with
      | Some d => digits_value s' (10 * acc + d)%N
      | None => None
      end
  end.

Definition array_index (k : string) : option N :=
  match k with
  | EmptyString => None
  | String c rest =>
      if Ascii.eqb c "0" && negb (String.eqb rest EmptyString) then None
      else
        match digits_value k 0 with
        | Some n => if (n <? 4294967295)%N then Some n else None
        | None => None
        end
  end.

Definition is_array_index (k : string) : bool :=
  match array_index k with
  | Some _ => true
  | None => false
  end.

(** The own properties whose keys are array indices, in ascending order of
    the index. *)
Fixpoint insert_by_index (e : string * RuleCategory) (l : Dict) : Dict :=
  match l with
  | [] => [e]
  | e' :: l' =>
      match array_index (fst e), array_index (fst e') with
      | Some n, Some n' =>
          if (n <=? n')%N then e :: l else e' :: insert_by_index e l'
      | _, _ => e :: l
      end
  end.

Fixpoint sort_by_index (l : Dict) : Dict :=
  match l with
  | [] => []
  | e :: l' => insert_by_index e (sort_by_index l')
  end.

(** [Object.values(dict)]: the values under the array indices in ascending
    order, then the others in the order of their creation. *)
Definition object_values (dict : Dict) : list RuleCategory :=
  map snd (sort_by_index (List.filter (fun e => is_array_index (fst e)) dict)
           ++ List.filter (fun e => negb (is_array_index (fst e))) dict)%list.

(** [convertToCategoryList] *)
Definition convertToCategoryList (ruleList : list RuleTemplateV2)
  : JsResult (list RuleCategory) :=
  match reduce_categories [] ruleList with
  | Value dict => Value (object_values dict)
  | Throw msg => Throw msg
  end.

(** The elements of a list without their later repetitions. *)
Fixpoint first_occurrences (l : list string) : list string :=
  match l with
  | [] => []
  | x :: l' =>
      x :: List.filter (fun y => negb (String.eqb y x)) (first_occurrences l')
  end.

(** The rules of a category, in the order of the list. *)
Definition rules_of (k : string) (rules : list RuleTemplateV2) : list RuleTemplateV2 :=
  List.filter (fun r => String.eqb (category r) k) rules.

(** The categories of a rule list, each with its rules, in the order in
    which the categories first occur. *)
Definition dict_of (rules : list RuleTemplateV2) : Dict :=
  map (fun k => (k, {| id := k; ruleList := rules_of k rules |}))
      (first_occurrences (map category rules)).

Definition inherited_category (rule : RuleTemplateV2) : bool :=
  inherited (category rule).

(** A rule of a category, and three lists of them. *)
Definition in_category (c ty : string) : RuleTemplateV2 :=
  {| type := ty; category := c; engine := 2; level := WARNING;
     componentList := []; comment := None |}.

Definition plain_rules : list RuleTemplateV2 :=
  [ in_category "NAMING" "naming.table"; in_category "TABLE" "table.comment";
    in_category "NAMING" "naming.column"; in_category "COLUMN" "column.required";
    in_category "TABLE" "table.limit-size" ].

Definition numbered_rules : list RuleTemplateV2 :=
  [ in_category "NAMING" "naming.table"; in_category "10" "table.comment";
    in_category "2" "column.required"; in_category "10" "table.limit-size" ].

Definition inherited_rules : list RuleTemplateV2 :=
  [ in_category "NAMING" "naming.table"; in_category "toString" "table.comment" ].

Section TemplateMap.

(** [engineFromJSON] of the generated [common.ts], and what it reads. *)
Variable EngineJSON : Type.
Variable engineFromJSON : EngineJSON -> Engine.

(** An entry of [sql-review-schema.yaml]: a rule template whose engine is
    still to be read and whose component list may be missing. *)
Record RuleSchema : Type := {
  schema_type : string;
  schema_category : string;
  schema_engine : EngineJSON;
  schema_level : SQLReviewRuleLevel;
  schema_componentList : option (list RuleConfigComponent);
  schema_comment : option string
}.

(** [{ ...ruleSchema, engine, componentList: ruleSchema.componentList || [] }] *)
Definition template_of_schema (ruleSchema : RuleSchema) : RuleTemplateV2 :=
  {| type := schema_type ruleSchema;
     category := schema_category ruleSchema;
     engine := engineFromJSON (schema_engine ruleSchema);
     level := schema_level ruleSchema;
     componentList :=
       match schema_componentList ruleSchema with
       | Some l => l
       | None => []
       end;
     comment := schema_comment ruleSchema |}.

(** The body of the [reduce] that builds [ruleTemplateMapV2]. *)
Definition template_map_step (map : gmap string (gmap Z RuleTemplateV2))
  (ruleSchema : RuleSchema) : gmap string (gmap Z RuleTemplateV2) :=
  let map :=
    match map !! schema_type ruleSchema with
    | Some _ => map
    | None => <[schema_type ruleSchema := ∅]> map
    end in
  let engine := engineFromJSON (schema_engine ruleSchema) in
  match map !! schema_type ruleSchema with
  | Some inner =>
      <[schema_type ruleSchema := <[engine := template_of_schema ruleSchema]> inner]> map
  | None => map
  end.

(** [ruleTemplateMapV2], for the content of the schema file. *)
Definition ruleTemplateMapV2 (sqlReviewSchema : list RuleSchema)
  : gmap string (gmap Z RuleTemplateV2) :=
  fold_left template_map_step sqlReviewSchema ∅.

(** [ruleTemplateMapV2.get(type)?.get(engine)] *)
Definition lookup_template (map : gmap string (gmap Z RuleTemplateV2))
  (ty : string) (e : Engine) : option RuleTemplateV2 :=
  match map !! ty with
  | Some inner => inner !! e
  | None => None
  end.

(** The entries of the schema for a rule type and an engine. *)
Definition schema_for (ty : string) (e : Engine) (ruleSchema : RuleSchema) : bool :=
  String.eqb (schema_type ruleSchema) ty
  && (engineFromJSON (schema_engine ruleSchema) =? e).

End TemplateMap.

End catalog.

(** * Properties of the table-naming advisor *)

Module naming_table.

Import advisor.
Import mssql.
Import naming.

Section WithDeps.
Context `{Deps}.

(** Induction on a tree, with the hypothesis for every child. *)
Lemma Tree_ind_children (P : parser.Tree -> Prop) :
  P parser.TerminalNode ->
  P parser.ErrorNode ->
  (forall ctx children, Forall P children -> P (parser.RuleNode ctx children)) ->
  forall t, P t.
Proof.
  intros Hterm Herr Hrule.
  fix IH 1.
  intros [ | | ctx children].
  - exact Hterm.
  - exact Herr.
  - apply Hrule.
    induction children as [ | child children IHchildren].
    + constructor.
    + constructor; [apply IH | exact IHchildren].
Qed.

Lemma Walk_RuleNode st ctx children :
  Walk st (parser.RuleNode ctx children)
  = exec_bind (EnterRule st ctx) (fun st => Walk_children st children).
Proof.
  simpl. destruct (EnterRule st ctx) as [st' | msg]; simpl; [ | reflexivity].
  revert st'. induction children as [ | child children IH]; intros st'; simpl.
  - reflexivity.
  - destruct (Walk st' child) as [st'' | msg]; simpl; [apply IH | reflexivity].
Qed.

Lemma EnterCreate_table_eq l ctx tn name :
  parser.Table_name ctx = Some tn ->
  parser.GetTable tn = Some name ->
  EnterCreate_table l ctx
  = Done (with_advices l
            (adviceList l ++ name_advices l name (parser.Create_table_Line ctx))).
Proof.
  intros Htn Hname. unfold EnterCreate_table, name_advices.
  rewrite Htn. simpl. rewrite Hname. simpl.
  destruct l as [lv ti fmt mx advs]; simpl.
  destruct (MatchString fmt name); simpl;
    destruct ((0 <? mx) && (mx <? len name)); simpl;
    unfold with_advices, append_advice, format_advice, length_advice,
      format_message, length_message; simpl;
    rewrite <- ?app_assoc, ?app_nil_r; reflexivity.
Qed.

Lemma EnterExecute_body_eq l log ctx :
  EnterExecute_body (l, log) ctx
  = match unqualified_procedure ctx with
    | None => Done (l, log)
    | Some v =>
        match NormalizedTSqlTableNamePart v with
        | Err err =>
            Done (l, (log ++ ["failed to normalize procedure name: " +:+ err])%list)
        | Return procedure =>
            if String.eqb procedure "sp_rename" then
              match new_name_literal ctx with
              | None => Done (l, log)
              | Some text =>
                  exec_bind (unquote text) (fun name =>
                    Done (with_advices l
                            (adviceList l
                             ++ name_advices l name (parser.Execute_body_Line ctx)),
                          log))
              end
            else Done (l, log)
        end
    end.
Proof.
  unfold EnterExecute_body, unqualified_procedure, new_name_literal,
    string_literal, parser.Execute_statement_arg_at.
  destruct (parser.Func_proc_name_server_database_schema ctx) as [a | ]; [ | reflexivity].
  destruct (parser.Func_proc_name_database_schema a) as [b | ]; [ | reflexivity].
  destruct (parser.Func_proc_name_schema b) as [c | ]; [ | reflexivity].
  destruct (parser.GetSchema c) as [sch | ].
  { rewrite bool_decide_eq_true_2 by discriminate. reflexivity. }
  rewrite bool_decide_eq_false_2 by (intros Hne; apply Hne; reflexivity).
  destruct (NormalizedTSqlTableNamePart (parser.GetProcedure c)) as [procedure | err];
    [ | reflexivity].
  destruct (String.eqb procedure "sp_rename"); simpl; [ | reflexivity].
  destruct (parser.Execute_statement_arg ctx) as [first | ]; [ | reflexivity].
  destruct (parser.Execute_statement_arg_unnamed first) as [fu | ]; [ | reflexivity].
  destruct (parser.Execute_parameter fu) as [fp | ]; [ | reflexivity].
  destruct (parser.Constant fp) as [fc | ]; [ | reflexivity].
  destruct (parser.STRING fc) as [old | ]; [ | reflexivity].
  destruct (parser.AllExecute_statement_arg first) as [ | second [ | third rest]];
    simpl; [reflexivity | | reflexivity].
  destruct (parser.Execute_statement_arg_unnamed second) as [su | ]; [ | reflexivity].
  destruct (parser.Execute_parameter su) as [sp | ]; [ | reflexivity].
  destruct (parser.Constant sp) as [sc | ]; [ | reflexivity].
  destruct (parser.STRING sc) as [text | ]; [ | reflexivity].
  unfold unquote.
  destruct (HasPrefix text "'" && HasSuffix text "'" ); simpl.
  2: { destruct l as [lv ti fmt mx advs]; unfold name_advices; simpl.
       destruct (MatchString fmt text); simpl;
         destruct ((0 <? mx) && (mx <? len text)); simpl;
         unfold with_advices, append_advice, format_advice, length_advice,
           format_message, length_message; simpl;
         rewrite <- ?app_assoc, ?app_nil_r; reflexivity. }
  destruct (slice text 1 (len text - 1)) as [name | msg]; simpl; [ | reflexivity].
  destruct l as [lv ti fmt mx advs]; unfold name_advices; simpl.
  destruct (MatchString fmt name); simpl;
    destruct ((0 <? mx) && (mx <? len name)); simpl;
    unfold with_advices, append_advice, format_advice, length_advice,
      format_message, length_message; simpl;
    rewrite <- ?app_assoc, ?app_nil_r; reflexivity.
Qed.

(** *** Quotes around a literal *)

Lemma substring_all (s t : string) :
  String.substring 0 (String.length s) (s +:+ t) = s.
Proof.
  induction s as [ | c s IH]; simpl.
  - destruct t; reflexivity.
  - rewrite IH. reflexivity.
Qed.

Lemma substring_skip (s t : string) (n : nat) :
  String.substring (String.length s) n (s +:+ t) = String.substring 0 n t.
Proof.
  induction s as [ | c s IH]; simpl; [reflexivity | exact IH].
Qed.

Lemma length_append (s t : string) :
  String.length (s +:+ t) = (String.length s + String.length t)%nat.
Proof.
  induction s as [ | c s IH]; simpl; [reflexivity | rewrite IH; reflexivity].
Qed.

Lemma HasSuffix_quote (s : string) : HasSuffix (s +:+ "'") "'" = true.
Proof.
  unfold HasSuffix. rewrite length_append. simpl String.length.
  rewrite Nat.add_1_r. simpl Nat.leb. cbv iota.
  replace (S (String.length s) - 1)%nat with (String.length s) by lia.
  rewrite substring_skip. reflexivity.
Qed.

(** A literal between quotes loses exactly that pair. *)
Lemma unquote_quoted (name : string) :
  unquote ("'" +:+ name +:+ "'") = Done name.
Proof.
  unfold unquote.
  assert (Hsuffix : HasSuffix ("'" +:+ name +:+ "'") "'" = true).
  { change ("'" +:+ name +:+ "'") with (("'" +:+ name) +:+ "'").
    apply HasSuffix_quote. }
  assert (Hprefix : HasPrefix ("'" +:+ name +:+ "'") "'" = true).
  { unfold HasPrefix. simpl. destruct (name +:+ "'"); reflexivity. }
  assert (Hlen : len ("'" +:+ name +:+ "'") = Z.of_nat (String.length name) + 2).
  { unfold len. rewrite !length_append. simpl String.length. lia. }
  rewrite Hsuffix, Hprefix. simpl andb. cbv iota.
  unfold slice. rewrite Hlen.
  set (n := String.length name).
  replace (Z.of_nat n + 2 - 1 - 1) with (Z.of_nat n) by lia.
  rewrite Nat2Z.id.
  destruct (0 <=? 1) eqn:H0; [ | discriminate].
  destruct (1 <=? Z.of_nat n + 2 - 1) eqn:H1; [ | apply Z.leb_gt in H1; lia].
  destruct (Z.of_nat n + 2 - 1 <=? Z.of_nat n + 2) eqn:H2;
    [ | apply Z.leb_gt in H2; lia].
  simpl andb. cbv iota. f_equal.
  change (Z.to_nat 1) with 1%nat.
  change ("'" +:+ name +:+ "'") with (String "'" (name +:+ "'")).
  simpl String.substring. unfold n. apply substring_all.
Qed.

(** Only the lone quote makes the slice panic. *)
Lemma unquote_Done (text : string) :
  String.eqb text "'" = false -> exists name, unquote text = Done name.
Proof.
  intros Hne. unfold unquote.
  destruct (HasPrefix text "'") eqn:Hp; simpl; [ | eexists; reflexivity].
  destruct (HasSuffix text "'") eqn:Hs; simpl; [ | eexists; reflexivity].
  destruct text as [ | c [ | d rest]].
  - discriminate Hp.
  - unfold HasPrefix in Hp. cbn [String.prefix] in Hp.
    destruct (ascii_dec "'" c) as [<- | ]; [discriminate Hne | discriminate Hp].
  - unfold slice, len. simpl String.length.
    destruct (0 <=? 1) eqn:H0; [ | discriminate].
    destruct (1 <=? Z.of_nat (S (S (String.length rest))) - 1) eqn:H1;
      [ | apply Z.leb_gt in H1; lia].
    destruct (Z.of_nat (S (S (String.length rest))) - 1
              <=? Z.of_nat (S (S (String.length rest)))) eqn:H2;
      [ | apply Z.leb_gt in H2; lia].
    simpl. eexists; reflexivity.
Qed.

(** *** The walk *)

Lemma EnterRule_Done st ctx :
  rule_ok ctx = true -> exists st', EnterRule st ctx = Done st'.
Proof.
  destruct st as [l log]. destruct ctx as [c | c | ]; unfold EnterRule, rule_ok.
  - destruct (parser.Table_name c) as [tn | ] eqn:Htn; [ | discriminate].
    destruct (parser.GetTable tn) as [name | ] eqn:Hname; [ | discriminate].
    intros _. cbn [fst snd]. rewrite (EnterCreate_table_eq l c tn name Htn Hname).
    simpl. eexists; reflexivity.
  - intros Hok. rewrite EnterExecute_body_eq.
    destruct (unqualified_procedure c) as [v | ]; [ | eexists; reflexivity].
    destruct (NormalizedTSqlTableNamePart v) as [procedure | err];
      [ | eexists; reflexivity].
    destruct (String.eqb procedure "sp_rename"); [ | eexists; reflexivity].
    destruct (new_name_literal c) as [text | ]; [ | eexists; reflexivity].
    apply negb_true_iff in Hok.
    destruct (unquote_Done text Hok) as [name ->]. simpl. eexists; reflexivity.
  - intros _. eexists; reflexivity.
Qed.

(** On a well-formed tree the walk runs to its end. *)
Lemma Walk_Done t : forall st, tree_ok t = true -> exists st', Walk st t = Done st'.
Proof.
  induction t as [ | | ctx children IH] using Tree_ind_children; intros st Hok.
  - eexists; reflexivity.
  - eexists; reflexivity.
  - rewrite Walk_RuleNode. simpl in Hok. apply andb_true_iff in Hok as [Hctx Hchildren].
    destruct (EnterRule_Done st ctx Hctx) as [st1 ->]. simpl.
    clear Hctx. revert st1.
    induction children as [ | child children IHchildren]; intros st1; simpl.
    + eexists; reflexivity.
    + simpl in Hchildren. apply andb_true_iff in Hchildren as [Hchild Hrest].
      inversion IH as [ | ? ? IHchild IHrest]; subst.
      destruct (IHchild st1 Hchild) as [st2 ->]. simpl.
      apply IHchildren; assumption.
Qed.

(** *** The result of [Check] *)

Lemma generateAdvice_eq l :
  generateAdvice l
  = (match adviceList l with [] => [ok_advice] | _ => adviceList l end, None).
Proof.
  unfold generateAdvice. destruct (adviceList l) as [ | a advs] eqn:Hadvs; simpl.
  - rewrite Hadvs. reflexivity.
  - rewrite Hadvs. reflexivity.
Qed.

Lemma Check_eq log ctx statement :
  Check log ctx statement
  = match ctx_AST ctx with
    | AST_Other => Done (([], Some "failed to convert to Tree"), log)
    | AST_Tree tree =>
        match NewStatusBySQLReviewRuleLevel (Level (Rule ctx)) with
        | Err err => Done (([], Some err), log)
        | Return lv =>
            match UnmarshalNamingRulePayloadAsRegexp (Payload (Rule ctx)) with
            | Err err => Done (([], Some err), log)
            | Return (re, n) =>
                exec_bind (Walk (new_listener lv (Type' (Rule ctx)) re n, log) tree)
                  (fun st => Done (generateAdvice (fst st), snd st))
            end
        end
    end.
Proof. reflexivity. Qed.

(** C1. On a context whose tree is well formed, [Check] returns, and it
    returns an error or a list of advices that is not empty; when the walk
    recorded no violation the list is the single advice with status
    Success, code Ok, title OK and empty content. *)
Theorem Check_never_empty log ctx statement :
  context_ok ctx = true ->
  exists advices err log',
    Check log ctx statement = Done ((advices, err), log')
    /\ (err <> None \/ advices <> [])
    /\ (forall tree lv re n l lg,
          ctx_AST ctx = AST_Tree tree ->
          NewStatusBySQLReviewRuleLevel (Level (Rule ctx)) = Return lv ->
          UnmarshalNamingRulePayloadAsRegexp (Payload (Rule ctx)) = Return (re, n) ->
          Walk (new_listener lv (Type' (Rule ctx)) re n, log) tree = Done (l, lg) ->
          adviceList l = [] ->
          err = None
          /\ advices = [ {| Status' := Success; Code' := Ok; Title := "OK";
                            Content := EmptyString; Line := 0 |} ]).
Proof.
  intros Hok. rewrite Check_eq. unfold context_ok in Hok.
  destruct (ctx_AST ctx) as [tree | ].
  2: { exists [], (Some "failed to convert to Tree"), log.
       split; [reflexivity | ]. split; [left; discriminate | ].
       intros; discriminate. }
  destruct (NewStatusBySQLReviewRuleLevel (Level (Rule ctx))) as [lv | e1].
  2: { exists [], (Some e1), log.
       split; [reflexivity | ]. split; [left; discriminate | ].
       intros; discriminate. }
  destruct (UnmarshalNamingRulePayloadAsRegexp (Payload (Rule ctx))) as [[re n] | e2].
  2: { exists [], (Some e2), log.
       split; [reflexivity | ]. split; [left; discriminate | ].
       intros; discriminate. }
  destruct (Walk_Done tree (new_listener lv (Type' (Rule ctx)) re n, log) Hok)
    as [[l' log'] Hwalk].
  rewrite Hwalk. simpl. rewrite generateAdvice_eq.
  eexists _, _, _. split; [reflexivity | ]. split.
  - right. destruct (adviceList l'); discriminate.
  - intros tree0 lv0 re0 n0 l lg Htree Hlv Hre Hwalk0 Hnil.
    inversion Htree; subst tree0. inversion Hlv; subst lv0.
    inversion Hre; subst re0 n0.
    rewrite Hwalk in Hwalk0. inversion Hwalk0; subst l lg.
    rewrite Hnil. split; reflexivity.
Qed.

(** *** The two checks on a created table *)

(** C4, as the code has it. For the name of a create-table node the format
    check is the search of [MatchString]; when the search fails exactly one
    advice is added for it, at the level of the rule, whose content is the
    name, the fixed text and the expression as [%q] quotes it; what follows
    it is the length advice or nothing, and nothing when no maximum is
    configured. *)
Theorem format_check l ctx tn name :
  parser.Table_name ctx = Some tn ->
  parser.GetTable tn = Some name ->
  exists length_part,
    EnterCreate_table l ctx
    = Done (with_advices l
              (adviceList l
               ++ (if MatchString (format l) name then []
                   else [ {| Status' := level l;
                             Code' := NamingTableConventionMismatch;
                             Title := title l;
                             Content :=
                               name
                               +:+ " mismatches table naming convention, naming format should be "
                               +:+ Quote (Regexp_String (format l));
                             Line := parser.Create_table_Line ctx |} ])
               ++ length_part))
    /\ (length_part = []
        \/ length_part = [length_advice l name (parser.Create_table_Line ctx)])
    /\ (maxLength l <= 0 -> length_part = []).
Proof.
  intros Htn Hname. rewrite (EnterCreate_table_eq l ctx tn name Htn Hname).
  unfold name_advices.
  exists (if (0 <? maxLength l) && (maxLength l <? len name)
          then [length_advice l name (parser.Create_table_Line ctx)] else []).
  split; [reflexivity | ]. split.
  - destruct ((0 <? maxLength l) && (maxLength l <? len name)); [right | left];
      reflexivity.
  - intros Hmax. destruct (Z.ltb_spec 0 (maxLength l)) as [Hpos | _]; [lia | ].
    reflexivity.
Qed.

(** C5. For the name of a create-table node the length advice is added if
    and only if the maximum is positive and the length of the name exceeds
    it; its content is the name, the fixed text and the maximum in decimal.
    What precedes it is the format advice or nothing, and nothing when the
    name matches the format. *)
Theorem length_check l ctx tn name :
  parser.Table_name ctx = Some tn ->
  parser.GetTable tn = Some name ->
  exists format_part,
    EnterCreate_table l ctx
    = Done (with_advices l
              (adviceList l
               ++ format_part
               ++ (if bool_decide (0 < maxLength l /\ maxLength l < len name)
                   then [ {| Status' := level l;
                             Code' := NamingTableConventionMismatch;
                             Title := title l;
                             Content :=
                               name
                               +:+ " mismatches table naming convention, its length should be within "
                               +:+ itoa (maxLength l) +:+ " characters";
                             Line := parser.Create_table_Line ctx |} ]
                   else [])))
    /\ (format_part = []
        \/ format_part = [format_advice l name (parser.Create_table_Line ctx)])
    /\ (MatchString (format l) name = true -> format_part = []).
Proof.
  intros Htn Hname. rewrite (EnterCreate_table_eq l ctx tn name Htn Hname).
  unfold name_advices.
  exists (if MatchString (format l) name then []
          else [format_advice l name (parser.Create_table_Line ctx)]).
  split; [ | split].
  - do 3 f_equal.
    destruct (Z.ltb_spec 0 (maxLength l)) as [Hpos | Hpos];
      destruct (Z.ltb_spec (maxLength l) (len name)) as [Hlen | Hlen]; simpl.
    + rewrite bool_decide_eq_true_2 by (split; assumption). reflexivity.
    + rewrite bool_decide_eq_false_2 by lia. reflexivity.
    + rewrite bool_decide_eq_false_2 by lia. reflexivity.
    + rewrite bool_decide_eq_false_2 by lia. reflexivity.
  - destruct (MatchString (format l) name); [left | right]; reflexivity.
  - intros ->. reflexivity.
Qed.

(** *** Rename calls *)

Lemma EnterExecute_body_rename_call l log proc old new line :
  NormalizedTSqlTableNamePart (Some proc) = Return "sp_rename" ->
  EnterExecute_body (l, log) (rename_call proc old new line)
  = exec_bind (unquote new) (fun name =>
      Done (with_advices l (adviceList l ++ name_advices l name line), log)).
Proof.
  intros Hproc. rewrite EnterExecute_body_eq.
  change (unqualified_procedure (rename_call proc old new line)) with (Some (Some proc)).
  cbv beta iota. rewrite Hproc.
  change (new_name_literal (rename_call proc old new line)) with (Some new).
  reflexivity.
Qed.

(** C6. In a rename call with two string literals the two checks run on
    the second literal without its pair of quotes, or on the literal as it
    is when it is not between quotes; the result does not depend on the
    first literal. *)
Theorem rename_checks_new_name l log proc old line :
  NormalizedTSqlTableNamePart (Some proc) = Return "sp_rename" ->
  (forall name,
      EnterExecute_body (l, log) (rename_call proc old ("'" +:+ name +:+ "'") line)
      = Done (with_advices l (adviceList l ++ name_advices l name line), log))
  /\ (forall new,
         HasPrefix new "'" && HasSuffix new "'" = false ->
         EnterExecute_body (l, log) (rename_call proc old new line)
         = Done (with_advices l (adviceList l ++ name_advices l new line), log))
  /\ (forall old' new,
         EnterExecute_body (l, log) (rename_call proc old new line)
         = EnterExecute_body (l, log) (rename_call proc old' new line)).
Proof.
  intros Hproc. split; [ | split].
  - intros name. rewrite (EnterExecute_body_rename_call _ _ _ _ _ _ Hproc).
    rewrite unquote_quoted. reflexivity.
  - intros new Hplain. rewrite (EnterExecute_body_rename_call _ _ _ _ _ _ Hproc).
    unfold unquote. rewrite Hplain. reflexivity.
  - intros old' new. rewrite !(EnterExecute_body_rename_call _ _ _ _ _ _ Hproc).
    reflexivity.
Qed.

(** C9. A name that fails both checks gets exactly two advices, the format
    advice and then the length advice, with the same code and the line of
    the statement, from a create-table node and from a rename call alike. *)
Theorem both_checks_fail l log name line :
  MatchString (format l) name = false ->
  0 < maxLength l ->
  maxLength l < len name ->
  let two :=
    [ {| Status' := level l; Code' := NamingTableConventionMismatch;
         Title := title l;
         Content := name
                    +:+ " mismatches table naming convention, naming format should be "
                    +:+ Quote (Regexp_String (format l));
         Line := line |};
      {| Status' := level l; Code' := NamingTableConventionMismatch;
         Title := title l;
         Content := name
                    +:+ " mismatches table naming convention, its length should be within "
                    +:+ itoa (maxLength l) +:+ " characters";
         Line := line |} ] in
  EnterCreate_table l (create_table name line)
  = Done (with_advices l (adviceList l ++ two))
  /\ (forall proc old,
         NormalizedTSqlTableNamePart (Some proc) = Return "sp_rename" ->
         EnterExecute_body (l, log) (rename_call proc old ("'" +:+ name +:+ "'") line)
         = Done (with_advices l (adviceList l ++ two), log)).
Proof.
  intros Hformat Hpos Hlen two.
  assert (Hadvices : name_advices l name line = two).
  { unfold name_advices. rewrite Hformat.
    destruct (Z.ltb_spec 0 (maxLength l)) as [_ | ]; [ | lia].
    destruct (Z.ltb_spec (maxLength l) (len name)) as [_ | ]; [ | lia].
    reflexivity. }
  split.
  - rewrite (EnterCreate_table_eq l (create_table name line) _ name eq_refl eq_refl).
    simpl parser.Create_table_Line. rewrite Hadvices. reflexivity.
  - intros proc old Hproc.
    rewrite (EnterExecute_body_rename_call _ _ _ _ _ _ Hproc).
    rewrite unquote_quoted. simpl. rewrite Hadvices. reflexivity.
Qed.

(** *** Calls that are not the rename *)







End WithDeps.

(** *** The scenarios, run *)

Import scenario.

(** Scenario A: one advice, for the format, naming [UserOrders]. *)
Example scenario_A :
  Check [] (context tree_A snake 0) "CREATE TABLE UserOrders (id INT);"
  = Done (([ {| Status' := Warn; Code' := NamingTableConventionMismatch;
                Title := "naming.table";
                Content := "UserOrders mismatches table naming convention, naming format should be "
                           +:+ quoted_snake;
                Line := 1 |} ], None), []).
Proof. vm_compute. reflexivity. Qed.

(** Scenario B: one advice, for the length. *)
Example scenario_B :
  Check [] (context tree_B snake 5) "CREATE TABLE orders_history (id INT);"
  = Done (([ {| Status' := Warn; Code' := NamingTableConventionMismatch;
                Title := "naming.table";
                Content := "orders_history mismatches table naming convention, its length should be within 5 characters";
                Line := 1 |} ], None), []).
Proof. vm_compute. reflexivity. Qed.

(** Scenario C: one advice, naming [NewTable]. *)
Example scenario_C :
  Check [] (context tree_C snake 0) "EXEC sp_rename 'dbo.Old_Table', 'NewTable';"
  = Done (([ {| Status' := Warn; Code' := NamingTableConventionMismatch;
                Title := "naming.table";
                Content := "NewTable mismatches table naming convention, naming format should be "
                           +:+ quoted_snake;
                Line := 1 |} ], None), []).
Proof. vm_compute. reflexivity. Qed.

(** Scenario D, the first argument holding the two others: Success. *)
Example scenario_D :
  Check [] (context tree_D snake 0) "EXEC sp_rename 'dbo.Old_Table', 'NewTable', 'OBJECT';"
  = Done (([ {| Status' := Success; Code' := Ok; Title := "OK";
                Content := EmptyString; Line := 0 |} ], None), []).
Proof. vm_compute. reflexivity. Qed.

(** The nested form of the three literals is read as a rename of two. *)
Example scenario_D_nested :
  Check [] (context tree_D_nested snake 0)
        "EXEC sp_rename 'dbo.Old_Table', 'NewTable', 'OBJECT';"
  = Done (([format_finding "NewTable"], None), []).
Proof. vm_compute. reflexivity. Qed.

(** *** Anchored formats

    In the concrete environment a format between [^] and [$] is found in a
    name exactly when the name as a whole matches what is between them. *)

Lemma ends_at_end (n : nat) (l : list nat) :
  match flat_map (fun k => if (k =? n)%nat then [k] else []) l with
  | [] => false
  | _ :: _ => true
  end = existsb (Nat.eqb n) l.
Proof.
  induction l as [ | k l IH]; simpl; [reflexivity | ].
  rewrite (Nat.eqb_sym n k).
  destruct (k =? n)%nat; simpl; [reflexivity | exact IH].
Qed.

Lemma no_match_after_start (f : nat -> list nat) (n start : nat) :
  (forall i, (0 < i)%nat -> f i = []) ->
  (0 < start)%nat ->
  existsb (fun i => match f i with [] => false | _ :: _ => true end) (seq start n)
  = false.
Proof.
  intros Hf. revert start.
  induction n as [ | n IH]; intros start Hstart; simpl; [reflexivity | ].
  rewrite (Hf start Hstart). simpl. apply IH. lia.
Qed.

Lemma anchored_search (r : sample.re) (s : string) :
  sample.search (sample.Cat sample.Bol (sample.Cat r sample.Eol)) s
  = sample.full_match r s.
Proof.
  unfold sample.search, sample.full_match.
  set (cs := list_ascii_of_string s).
  change (seq 0 (S (length cs))) with (0%nat :: seq 1 (length cs)).
  cbn [existsb].
  rewrite (no_match_after_start
             (sample.ends (sample.Cat sample.Bol (sample.Cat r sample.Eol)) cs)).
  - rewrite orb_false_r.
    cbn [sample.ends Nat.eqb flat_map]. rewrite app_nil_r.
    apply ends_at_end.
  - intros i Hi. cbn [sample.ends].
    destruct (Nat.eqb_spec i 0) as [-> | _]; [lia | reflexivity].
  - lia.
Qed.

(** *** The properties at the scenarios *)

Lemma Check_never_empty_witness :
  context_ok (context tree_A snake 0) = true
  /\ exists advices err log',
       Check [] (context tree_A snake 0) "CREATE TABLE UserOrders (id INT);"
       = Done ((advices, err), log')
       /\ (err <> None \/ advices <> []).
Proof.
  split; [reflexivity | ].
  destruct (Check_never_empty [] (context tree_A snake 0)
              "CREATE TABLE UserOrders (id INT);" eq_refl)
    as (advices & err & log' & Hcheck & Hnonempty & _).
  exists advices, err, log'. split; assumption.
Defined.

Lemma format_check_witness :
  parser.Table_name (create_table "UserOrders" 1)
  = Some {| parser.GetTable := Some "UserOrders" |}
  /\ parser.GetTable {| parser.GetTable := Some "UserOrders" |} = Some "UserOrders"
  /\ EnterCreate_table (listener snake 0) (create_table "UserOrders" 1)
     = Done (with_advices (listener snake 0) [format_finding "UserOrders"]).
Proof.
  split; [reflexivity | ]. split; [reflexivity | ].
  destruct (format_check (listener snake 0) (create_table "UserOrders" 1)
              {| parser.GetTable := Some "UserOrders" |} "UserOrders"
              eq_refl eq_refl)
    as (length_part & Henter & _ & Hnone).
  rewrite Henter, Hnone; [reflexivity | ].
  simpl. lia.
Defined.

Lemma length_check_witness :
  parser.Table_name (create_table "orders_history" 1)
  = Some {| parser.GetTable := Some "orders_history" |}
  /\ parser.GetTable {| parser.GetTable := Some "orders_history" |}
     = Some "orders_history"
  /\ EnterCreate_table (listener snake 5) (create_table "orders_history" 1)
     = Done (with_advices (listener snake 5) [length_finding "orders_history" "5"]).
Proof.
  split; [reflexivity | ]. split; [reflexivity | ].
  destruct (length_check (listener snake 5) (create_table "orders_history" 1)
              {| parser.GetTable := Some "orders_history" |} "orders_history"
              eq_refl eq_refl)
    as (format_part & Henter & _ & Hnone).
  rewrite Henter, Hnone; reflexivity.
Defined.

Lemma rename_checks_new_name_witness :
  NormalizedTSqlTableNamePart (Some "sp_rename") = Return "sp_rename"
  /\ EnterExecute_body (listener snake 0, []) call_C
     = Done (with_advices (listener snake 0) [format_finding "NewTable"], [])
  /\ EnterExecute_body (listener snake 0, []) call_C
     = EnterExecute_body (listener snake 0, [])
         (rename_call "sp_rename" "'users'" "'NewTable'" 1).
Proof.
  split; [reflexivity | ].
  destruct (rename_checks_new_name (listener snake 0) [] "sp_rename"
              "'dbo.Old_Table'" 1 eq_refl)
    as (Hquoted & _ & Hold).
  split.
  - exact (Hquoted "NewTable").
  - exact (Hold "'users'" "'NewTable'").
Defined.

Lemma both_checks_fail_witness :
  MatchString (format (listener snake 5)) long_bad_name = false
  /\ 0 < maxLength (listener snake 5)
  /\ maxLength (listener snake 5) < len long_bad_name
  /\ EnterCreate_table (listener snake 5) (create_table long_bad_name 1)
     = Done (with_advices (listener snake 5)
               [format_finding long_bad_name; length_finding long_bad_name "5"])
  /\ EnterExecute_body (listener snake 5, [])
       (rename_call "sp_rename" "'old'" ("'" +:+ long_bad_name +:+ "'") 1)
     = Done (with_advices (listener snake 5)
               [format_finding long_bad_name; length_finding long_bad_name "5"], []).
Proof.
  assert (Hformat : MatchString (format (listener snake 5)) long_bad_name = false)
    by reflexivity.
  assert (Hpos : 0 < maxLength (listener snake 5)) by reflexivity.
  assert (Hlen : maxLength (listener snake 5) < len long_bad_name) by reflexivity.
  destruct (both_checks_fail (listener snake 5) [] long_bad_name 1 Hformat Hpos Hlen)
    as (Hcreate & Hrename).
  split; [exact Hformat | ]. split; [exact Hpos | ]. split; [exact Hlen | ].
  split.
  - exact Hcreate.
  - exact (Hrename "sp_rename" "'old'" eq_refl).
Defined.



(** The claim C4 fails as it is worded: the advice of Scenario A does not
    end with the bare expression but with the expression between double
    quotes, and a format without anchors accepts a name that contains a
    match without being one. *)
Lemma format_check_counterexample :
  (exists a,
      EnterCreate_table (listener snake 0) (create_table "UserOrders" 1)
      = Done (with_advices (listener snake 0) [a])
      /\ Content a
         <> "UserOrders mismatches table naming convention, naming format should be ^[a-z]+(_[a-z]+)*$")
  /\ sample.full_match (sample.expr (compiled lower_word)) "UserOrders" = false
  /\ EnterCreate_table (listener lower_word 0) (create_table "UserOrders" 1)
     = Done (listener lower_word 0).
Proof.
  split; [ | split].
  - exists (format_finding "UserOrders"). split; [reflexivity | ].
    vm_compute. discriminate.
  - reflexivity.
  - reflexivity.
Qed.


End naming_table.

(** * Properties of the rule conversion *)

Module rule_conversion.

Import sqlReview.
Import conversion.

(** C2 at [naming.identifier.case]: the conversion to a template leaves
    the BOOLEAN component as the template has it, so the way back stores
    the default of the template and not the [upper] of the rule. *)
Theorem identifier_case_round_trip :
  exists t' r',
    convertPolicyRuleToRuleTemplate case_rule case_template = Value t'
    /\ convertRuleTemplateToPolicyRule t' = Value r'
    /\ rule_payload case_rule = Some {[ "upper" := JBool true ]}
    /\ rule_payload r' = Some {[ "upper" := JBool false ]}
    /\ r' <> case_rule.
Proof.
  eexists _, _. split; [reflexivity | ]. split; [reflexivity | ].
  split; [reflexivity | ]. split; [reflexivity | ].
  intros Heq. apply (f_equal rule_payload) in Heq.
  apply (f_equal (fun o => match o with Some p => p !! "upper" | None => None end)) in Heq.
  vm_compute in Heq. discriminate Heq.
Qed.

(** *** Errors of the two conversions *)

Lemma case_of_cons ty label labels :
  case_of ty (label :: labels) = String.eqb ty label || case_of ty labels.
Proof. reflexivity. Qed.

(** Reduce the table in [Hmis] once the [case] group is known, and decide
    by the components that are found. *)
Ltac by_components Hmis :=
  cbn [option_map map snd forallb negb andb] in Hmis;
  unfold has_component in Hmis;
  repeat match goal with
         | |- context [find_component ?k ?l] =>
             destruct (find_component k l)
         end;
  try reflexivity; simpl in Hmis; discriminate Hmis.

Lemma to_template_misconfigured r t :
  rule_type r = type t ->
  componentList t <> [] ->
  type t <> "column.required" ->
  misconfigured t = true ->
  convertPolicyRuleToRuleTemplate r t = Throw (invalid_rule (type t)).
Proof.
  intros Hty Hne Hcol Hmis.
  unfold convertPolicyRuleToRuleTemplate.
  rewrite Hty, String.eqb_refl. cbn [negb]. cbv zeta.
  unfold misconfigured, required_components, payload_fields in Hmis.
  destruct (componentList t) as [ | c0 rest] eqn:Hlist; [contradiction | ].
  cbn [length Nat.eqb].
  apply String.eqb_neq in Hcol.
  rewrite (case_of_cons (type t) "column.required" string_array_rules) in Hmis.
  change (case_of (type t) ["column.required"])
    with (String.eqb (type t) "column.required" || false).
  rewrite Hcol in *. cbn [orb] in *.
  repeat match type of Hmis with
         | context [if case_of ?ty ?labels then _ else _] =>
             destruct (case_of ty labels); [by_components Hmis | ]
         end.
  reflexivity.
Qed.

Lemma to_rule_misconfigured t :
  componentList t <> [] ->
  misconfigured t = true ->
  convertRuleTemplateToPolicyRule t = Throw (invalid_rule (type t)).
Proof.
  intros Hne Hmis.
  unfold convertRuleTemplateToPolicyRule, mergeIndividualConfigAsRule, find_payload.
  cbv zeta.
  unfold misconfigured, required_components, payload_fields in Hmis.
  destruct (componentList t) as [ | c0 rest] eqn:Hlist; [contradiction | ].
  cbn [length Nat.eqb].
  repeat match type of Hmis with
         | context [if case_of ?ty ?labels then _ else _] =>
             destruct (case_of ty labels); [by_components Hmis | ]
         end.
  reflexivity.
Qed.

Lemma to_template_type_mismatch r t :
  rule_type r <> type t ->
  convertPolicyRuleToRuleTemplate r t
  = Throw ("The rule type is not same. policyRule:" +:+ type t
           +:+ ", ruleTemplate:" +:+ type t).
Proof.
  intros Hne. unfold convertPolicyRuleToRuleTemplate.
  apply String.eqb_neq in Hne. rewrite Hne. reflexivity.
Qed.

Lemma to_template_without_components r t :
  rule_type r = type t ->
  componentList t = [] ->
  convertPolicyRuleToRuleTemplate r t
  = Value {| type := type t; category := category t;
             engine := rule_engine r; level := rule_level r;
             componentList := [];
             comment := Some (rule_comment r) |}.
Proof.
  intros Hty Hnil. unfold convertPolicyRuleToRuleTemplate.
  rewrite Hty, String.eqb_refl, Hnil. reflexivity.
Qed.

Lemma to_rule_without_components t :
  componentList t = [] ->
  convertRuleTemplateToPolicyRule t
  = Value {| rule_type := type t; rule_level := level t;
             rule_engine := engine t; rule_payload := None;
             rule_comment :=
               match comment t with Some c => c | None => EmptyString end |}.
Proof.
  intros Hnil. unfold convertRuleTemplateToPolicyRule. rewrite Hnil. reflexivity.
Qed.

(** C3, as the code has it. With a template that has components, a
    missing required component or a rule type outside the table makes the
    conversion throw (towards the template for a rule of the type of the
    template and every rule type but [column.required], towards the stored
    rule for every one); a rule whose type is not the type of the template
    makes the conversion towards the template throw; a rule level or a
    payload that the set-up of [Check] rejects makes [Check] return that
    error with no advice and before any walk. A template without
    components is converted without an error whatever its rule type:
    towards the template, for a rule of its type, to itself with the
    engine, the level and the comment of the rule, and towards the stored
    rule to a rule without payload. *)
Theorem configuration_errors_surface :
  (forall r t,
      rule_type r = type t ->
      componentList t <> [] ->
      type t <> "column.required" ->
      misconfigured t = true ->
      convertPolicyRuleToRuleTemplate r t = Throw (invalid_rule (type t)))
  /\ (forall t,
         componentList t <> [] ->
         misconfigured t = true ->
         convertRuleTemplateToPolicyRule t = Throw (invalid_rule (type t)))
  /\ (forall (D : Deps) log ctx statement tree err,
         mssql.ctx_AST ctx = mssql.AST_Tree tree ->
         NewStatusBySQLReviewRuleLevel (mssql.Level (mssql.Rule ctx)) = Err err ->
         mssql.Check log ctx statement = Done (([], Some err), log))
  /\ (forall (D : Deps) log ctx statement tree lv err,
         mssql.ctx_AST ctx = mssql.AST_Tree tree ->
         NewStatusBySQLReviewRuleLevel (mssql.Level (mssql.Rule ctx)) = Return lv ->
         UnmarshalNamingRulePayloadAsRegexp (mssql.Payload (mssql.Rule ctx)) = Err err ->
         mssql.Check log ctx statement = Done (([], Some err), log))
  /\ (forall r t,
         rule_type r <> type t ->
         convertPolicyRuleToRuleTemplate r t
         = Throw ("The rule type is not same. policyRule:" +:+ type t
                  +:+ ", ruleTemplate:" +:+ type t))
  /\ (forall r t,
         rule_type r = type t ->
         componentList t = [] ->
         convertPolicyRuleToRuleTemplate r t
         = Value {| type := type t; category := category t;
                    engine := rule_engine r; level := rule_level r;
                    componentList := [];
                    comment := Some (rule_comment r) |})
  /\ (forall t,
         componentList t = [] ->
         convertRuleTemplateToPolicyRule t
         = Value {| rule_type := type t; rule_level := level t;
                    rule_engine := engine t; rule_payload := None;
                    rule_comment :=
                      match comment t with Some c => c | None => EmptyString end |}).
Proof.
  split; [exact to_template_misconfigured | ].
  split; [exact to_rule_misconfigured | ].
  split.
  { intros D log ctx statement tree err Htree Hlevel.
    unfold mssql.Check. rewrite Htree, Hlevel. reflexivity. }
  split.
  { intros D log ctx statement tree lv err Htree Hlevel Hpayload.
    unfold mssql.Check. rewrite Htree, Hlevel, Hpayload. reflexivity. }
  split; [exact to_template_type_mismatch | ].
  split; [exact to_template_without_components | ].
  exact to_rule_without_components.
Qed.

Lemma configuration_errors_surface_witness :
  misconfigured number_only_table_template = true
  /\ convertPolicyRuleToRuleTemplate table_rule number_only_table_template
     = Throw "Invalid rule naming.table"
  /\ convertRuleTemplateToPolicyRule number_only_table_template
     = Throw "Invalid rule naming.table"
  /\ misconfigured unknown_template = true
  /\ convertRuleTemplateToPolicyRule unknown_template
     = Throw "Invalid rule statement.unknown"
  /\ mssql.Check []
       {| mssql.ctx_AST := mssql.AST_Tree scenario.tree_A;
          mssql.Rule :=
            {| mssql.Type' := "naming.table";
               mssql.Level := sample.LevelDisabled;
               mssql.Payload := {| sample.Format := scenario.snake;
                                   sample.MaxLength := 0 |} |} |}
       "CREATE TABLE UserOrders (id INT);"
     = Done (([], Some "unexpected rule level type: DISABLED"), [])
  /\ mssql.Check [] (scenario.context scenario.tree_A "[a-z" 0)
       "CREATE TABLE UserOrders (id INT);"
     = Done (([], Some "error parsing regexp: [a-z"), [])
  /\ convertPolicyRuleToRuleTemplate case_rule table_template
     = Throw "The rule type is not same. policyRule:naming.table, ruleTemplate:naming.table"
  /\ convertPolicyRuleToRuleTemplate table_rule bare_table_template
     = Value {| type := "naming.table"; category := category bare_table_template;
                engine := rule_engine table_rule; level := rule_level table_rule;
                componentList := [];
                comment := Some (rule_comment table_rule) |}
  /\ convertRuleTemplateToPolicyRule bare_table_template
     = Value {| rule_type := "naming.table";
                rule_level := level bare_table_template;
                rule_engine := engine bare_table_template;
                rule_payload := None;
                rule_comment := EmptyString |}.
Proof.
  destruct configuration_errors_surface
    as (Hto_template & Hto_rule & Hlevel & Hformat & Htypes & Hbare & Hbare_rule).
  split; [reflexivity | ].
  split.
  { apply (Hto_template table_rule number_only_table_template);
      [reflexivity | discriminate | discriminate | reflexivity]. }
  split.
  { apply (Hto_rule number_only_table_template); [discriminate | reflexivity]. }
  split; [reflexivity | ].
  split.
  { apply (Hto_rule unknown_template); [discriminate | reflexivity]. }
  split.
  { apply (Hlevel sample.deps [] _ _ scenario.tree_A); reflexivity. }
  split.
  { apply (Hformat sample.deps [] _ _ scenario.tree_A advisor.Warn); reflexivity. }
  split.
  { apply (Htypes case_rule table_template). discriminate. }
  split.
  { apply (Hbare table_rule bare_table_template); reflexivity. }
  apply (Hbare_rule bare_table_template). reflexivity.
Defined.

(** The claim C3 fails as it is worded: a template of [naming.table]
    without any component lacks both required components and is converted
    in both directions without an error; and a template of
    [column.required] whose only component is a number is converted to a
    template that carries the stored list on that number. *)
Lemma configuration_errors_counterexample :
  misconfigured bare_table_template = true
  /\ (exists t', convertPolicyRuleToRuleTemplate table_rule bare_table_template
                 = Value t')
  /\ (exists r', convertRuleTemplateToPolicyRule bare_table_template = Value r')
  /\ misconfigured required_template = true
  /\ convertPolicyRuleToRuleTemplate required_rule required_template
     = Value {| type := "column.required"; category := "COLUMN"; engine := 2;
                level := ERROR;
                componentList :=
                  [ {| key := "limit";
                       component_payload :=
                         {| payload_type := NUMBER;
                            payload_default := JNumber 3;
                            payload_value := JArray ["id"; "created_ts"];
                            templateList := None |} |} ];
                comment := Some EmptyString |}.
Proof.
  split; [reflexivity | ].
  split; [eexists; reflexivity | ].
  split; [eexists; reflexivity | ].
  split; [reflexivity | ].
  reflexivity.
Qed.

(** *** The legacy path of [column.required] *)

(** C10, as the code has it. For [column.required] the conversion to a
    template overlays the first component of the template, whatever its
    kind, with what is stored under [columnList] when that is truthy, and
    with what is stored under [list] when it is not: an array under
    [columnList], the empty one too, is taken; a [columnList] that is
    absent, or holds null, false, 0 or the empty text, gives way to
    [list]. *)
Theorem column_required_legacy r t c rest :
  rule_type r = "column.required" ->
  type t = "column.required" ->
  componentList t = c :: rest ->
  let payload := match rule_payload r with Some p => p | None => ∅ end in
  let converted (v : JsValue) : JsResult RuleTemplateV2 :=
    Value {| type := type t; category := category t;
             engine := rule_engine r; level := rule_level r;
             componentList :=
               [ {| key := key c;
                    component_payload :=
                      {| payload_type := payload_type (component_payload c);
                         payload_default := payload_default (component_payload c);
                         payload_value := v;
                         templateList := templateList (component_payload c) |} |} ];
             comment := Some (rule_comment r) |} in
  let listed := match payload !! "list" with Some v => v | None => JUndefined end in
  (forall columns,
      payload !! "columnList" = Some (JArray columns) ->
      convertPolicyRuleToRuleTemplate r t = converted (JArray columns))
  /\ (payload !! "columnList" = None ->
      convertPolicyRuleToRuleTemplate r t = converted listed)
  /\ (forall v,
         payload !! "columnList" = Some v ->
         convertPolicyRuleToRuleTemplate r t
         = converted (match v with
                      | JUndefined | JNull | JBool false | JNumber 0
                      | JString EmptyString => listed
                      | _ => v
                      end)).
Proof.
  intros Hr Ht Hlist payload converted listed.
  assert (Hconv : convertPolicyRuleToRuleTemplate r t
                  = converted (if negb (truthy (get payload "columnList"))
                               then get payload "list"
                               else get payload "columnList")).
  { subst converted payload. unfold convertPolicyRuleToRuleTemplate.
    rewrite Hr, Ht, Hlist. reflexivity. }
  split; [ | split].
  - intros columns Hcolumns. rewrite Hconv. unfold get. rewrite Hcolumns. reflexivity.
  - intros Habsent. rewrite Hconv. unfold get. rewrite Habsent. reflexivity.
  - intros v Hv. rewrite Hconv. unfold get at 1 3. rewrite Hv.
    destruct v as [ | | [ | ] | [ | n | n] | [ | a s] | l]; reflexivity.
Qed.

Lemma column_required_legacy_witness :
  rule_type required_rule = "column.required"
  /\ type required_template = "column.required"
  /\ componentList required_template = [component "limit" NUMBER (JNumber 3)]
  /\ convertPolicyRuleToRuleTemplate required_rule required_template
     = Value (template_with_value (JArray ["id"; "created_ts"]))
  /\ convertPolicyRuleToRuleTemplate
       (stored "column.required" (Some {[ "list" := JArray ["id"] ]}))
       required_template
     = Value (template_with_value (JArray ["id"]))
  /\ convertPolicyRuleToRuleTemplate (columns_rule (JArray [])) required_template
     = Value (template_with_value (JArray []))
  /\ convertPolicyRuleToRuleTemplate (columns_rule (JNumber 0)) required_template
     = Value (template_with_value (JArray ["id"])).
Proof.
  split; [reflexivity | ]. split; [reflexivity | ]. split; [reflexivity | ].
  split; [ | split; [ | split]].
  - destruct (column_required_legacy required_rule required_template
                (component "limit" NUMBER (JNumber 3)) [] eq_refl eq_refl eq_refl)
      as (Hold & _).
    exact (Hold ["id"; "created_ts"] eq_refl).
  - destruct (column_required_legacy
                (stored "column.required" (Some {[ "list" := JArray ["id"] ]}))
                required_template
                (component "limit" NUMBER (JNumber 3)) [] eq_refl eq_refl eq_refl)
      as (_ & Hnew & _).
    exact (Hnew eq_refl).
  - destruct (column_required_legacy (columns_rule (JArray [])) required_template
                (component "limit" NUMBER (JNumber 3)) [] eq_refl eq_refl eq_refl)
      as (_ & _ & Hstored).
    exact (Hstored (JArray []) eq_refl).
  - destruct (column_required_legacy (columns_rule (JNumber 0)) required_template
                (component "limit" NUMBER (JNumber 3)) [] eq_refl eq_refl eq_refl)
      as (_ & _ & Hstored).
    exact (Hstored (JNumber 0) eq_refl).
Defined.

(** *** The round trip of a stored rule *)

Lemma payload_ok_one k kd (p : JsObject) :
  payload_ok [(k, kd)] p = true ->
  exists v, p = {[ k := v ]} /\ has_kind kd v = true.
Proof.
  unfold payload_ok. cbn [map fst snd forallb list_to_set foldr].
  intros Hok. apply andb_true_iff in Hok as [Hdom Hv].
  apply bool_decide_eq_true in Hdom.
  destruct (p !! k) as [v | ] eqn:Hk; [ | discriminate].
  exists v. split; [ | destruct (has_kind kd v); [reflexivity | discriminate]].
  apply map_eq. intros i. destruct (decide (i = k)) as [-> | Hne].
  - rewrite lookup_singleton_eq. exact Hk.
  - rewrite lookup_singleton_ne by congruence.
    apply not_elem_of_dom. rewrite Hdom. set_solver.
Qed.

Lemma payload_ok_two k1 kd1 k2 kd2 (p : JsObject) :
  payload_ok [(k1, kd1); (k2, kd2)] p = true ->
  exists v1 v2,
    p = <[k1 := v1]> {[ k2 := v2 ]}
    /\ has_kind kd1 v1 = true /\ has_kind kd2 v2 = true.
Proof.
  unfold payload_ok. cbn [map fst snd forallb list_to_set foldr].
  intros Hok. apply andb_true_iff in Hok as [Hdom Hv].
  apply bool_decide_eq_true in Hdom.
  destruct (p !! k1) as [v1 | ] eqn:Hk1; [ | discriminate].
  destruct (p !! k2) as [v2 | ] eqn:Hk2;
    [ | rewrite andb_false_r in Hv; discriminate].
  exists v1, v2.
  destruct (has_kind kd1 v1); [ | discriminate].
  destruct (has_kind kd2 v2); [ | discriminate].
  split; [ | split; reflexivity].
  apply map_eq. intros i. destruct (decide (i = k1)) as [-> | Hne1].
  - rewrite lookup_insert_eq. exact Hk1.
  - rewrite lookup_insert_ne by congruence.
    destruct (decide (i = k2)) as [-> | Hne2].
    + rewrite lookup_singleton_eq. exact Hk2.
    + rewrite lookup_singleton_ne by congruence.
      apply not_elem_of_dom. rewrite Hdom. set_solver.
Qed.

Lemma find_component_kind kd l c :
  find_component kd l = Some c -> payload_type (component_payload c) = kd.
Proof.
  unfold find_component. intros Hfind. apply find_some in Hfind as [_ Hkind].
  apply bool_decide_eq_true in Hkind. exact Hkind.
Qed.

Lemma has_component_found kd l :
  has_component kd l = true ->
  exists c, find_component kd l = Some c
            /\ payload_type (component_payload c) = kd.
Proof.
  unfold has_component. destruct (find_component kd l) as [c | ] eqn:Hfind;
    [ | discriminate].
  intros _. exists c. split; [reflexivity | ].
  apply (find_component_kind kd l c Hfind).
Qed.

Lemma find_component_here kd c v l :
  payload_type (component_payload c) = kd ->
  find_component kd (overlay c v :: l) = Some (overlay c v).
Proof.
  intros Hkind. unfold find_component. cbn [find overlay with_payload with_value
    component_payload payload_type].
  rewrite bool_decide_eq_true_2 by exact Hkind. reflexivity.
Qed.

Lemma find_component_next kd c v l :
  payload_type (component_payload c) <> kd ->
  find_component kd (overlay c v :: l) = find_component kd l.
Proof.
  intros Hkind. unfold find_component. cbn [find overlay with_payload with_value
    component_payload payload_type].
  rewrite bool_decide_eq_false_2 by exact Hkind. reflexivity.
Qed.

Lemma current_overlay kd c v :
  has_kind kd v = true ->
  current (component_payload (overlay c v)) = v.
Proof.
  intros Hkind. unfold current. cbn.
  destruct kd, v; try discriminate Hkind; reflexivity.
Qed.

Lemma get_singleton k v : get {[ k := v ]} k = v.
Proof. unfold get. rewrite lookup_singleton_eq. reflexivity. Qed.

Lemma get_insert k v (p : JsObject) : get (<[k := v]> p) k = v.
Proof. unfold get. rewrite lookup_insert_eq. reflexivity. Qed.

Lemma get_insert_ne k k' v (p : JsObject) :
  k <> k' -> get (<[k := v]> p) k' = get p k'.
Proof. intros Hne. unfold get. rewrite lookup_insert_ne by exact Hne. reflexivity. Qed.

Ltac rewrite_cases :=
  repeat match goal with
         | H : case_of ?ty ?labels = _ |- context [case_of ?ty ?labels] =>
             rewrite H
         end.

(** The way back from the template just built, once the [case] group is
    known. *)
Ltac back_to_rule :=
  eexists; split; [reflexivity | ];
  unfold convertRuleTemplateToPolicyRule, mergeIndividualConfigAsRule, find_payload;
  cbn [componentList with_componentList type level engine comment length Nat.eqb];
  cbv zeta; rewrite_cases.

Ltac one_field Hfields Hp Hcomps :=
  cbv beta iota in Hfields; inversion Hfields; subst; clear Hfields;
  cbn [forallb snd andb] in Hcomps;
  apply andb_true_iff in Hcomps as [Hcomps _];
  destruct (has_component_found _ _ Hcomps) as (c & Hfind & Hkind);
  destruct (payload_ok_one _ _ _ Hp) as (v & -> & Hv);
  rewrite Hfind;
  back_to_rule;
  rewrite (find_component_here _ c _ _ Hkind);
  rewrite get_singleton, (current_overlay _ c v Hv);
  reflexivity.

Ltac two_fields Hfields Hp Hcomps :=
  cbv beta iota in Hfields; inversion Hfields; subst; clear Hfields;
  cbn [forallb snd andb] in Hcomps;
  apply andb_true_iff in Hcomps as [Hcomps1 Hcomps2];
  apply andb_true_iff in Hcomps2 as [Hcomps2 _];
  destruct (has_component_found _ _ Hcomps1) as (c1 & Hfind1 & Hkind1);
  destruct (has_component_found _ _ Hcomps2) as (c2 & Hfind2 & Hkind2);
  destruct (payload_ok_two _ _ _ _ _ Hp) as (v1 & v2 & -> & Hv1 & Hv2);
  rewrite Hfind1, Hfind2;
  back_to_rule;
  rewrite (find_component_here _ c1 _ _ Hkind1);
  rewrite find_component_next by (rewrite Hkind1; discriminate);
  rewrite (find_component_here _ c2 _ _ Hkind2);
  rewrite get_insert, get_insert_ne by discriminate;
  rewrite get_singleton;
  rewrite (current_overlay _ c1 v1 Hv1), (current_overlay _ c2 v2 Hv2);
  reflexivity.

(** For every rule type of the table but [naming.identifier.case], a
    well-formed stored rule comes back unchanged from its template. *)
Lemma round_trip r t :
  well_formed r t = true ->
  type t <> "naming.identifier.case" ->
  exists t',
    convertPolicyRuleToRuleTemplate r t = Value t'
    /\ convertRuleTemplateToPolicyRule t' = Value r.
Proof.
  intros Hwf Hcase.
  unfold well_formed in Hwf. apply andb_true_iff in Hwf as [Hty Hwf].
  apply String.eqb_eq in Hty.
  destruct r as [rty rlv ren rp rc]. cbn [rule_type rule_payload] in *. subst rty.
  unfold convertPolicyRuleToRuleTemplate.
  cbn [rule_type rule_payload rule_level rule_engine rule_comment].
  rewrite String.eqb_refl. cbn [negb]. cbv zeta.
  unfold head_ok in Hwf.
  destruct (componentList t) as [ | c0 rest] eqn:Hlist.
  { destruct rp; [discriminate | ]. cbn [length Nat.eqb].
    eexists. split; [reflexivity | ].
    unfold convertRuleTemplateToPolicyRule. cbn. reflexivity. }
  cbn [length Nat.eqb].
  destruct (payload_fields (type t)) as [fields | ] eqn:Hfields; [ | discriminate].
  destruct rp as [p | ]; [ | discriminate].
  apply andb_true_iff in Hwf as [Hwf Hhead].
  apply andb_true_iff in Hwf as [Hp Hcomps].
  unfold payload_fields in Hfields.
  assert (Hcase6 : case_of (type t) ["naming.identifier.case"] = false).
  { unfold case_of. cbn [existsb]. apply String.eqb_neq in Hcase.
    rewrite Hcase. reflexivity. }
  rewrite Hcase6 in Hfields. rewrite Hcase6.
  destruct (case_of (type t) ["statement.query.minimum-plan-level"]) eqn:E1;
    [one_field Hfields Hp Hcomps | ].
  destruct (case_of (type t) ["table.drop-naming-convention"]) eqn:E2;
    [one_field Hfields Hp Hcomps | ].
  destruct (case_of (type t)
              ["naming.column"; "naming.column.auto-increment"; "naming.table"]) eqn:E3;
    [two_fields Hfields Hp Hcomps | ].
  destruct (case_of (type t) ["naming.index.pk"]) eqn:E4;
    [one_field Hfields Hp Hcomps | ].
  destruct (case_of (type t)
              ["naming.index.idx"; "naming.index.uk"; "naming.index.fk"]) eqn:E5;
    [two_fields Hfields Hp Hcomps | ].
  change (case_of (type t) ["column.required"])
    with (String.eqb (type t) "column.required" || false).
  destruct (String.eqb (type t) "column.required") eqn:Erequired.
  { assert (E7 : case_of (type t) ("column.required" :: string_array_rules) = true).
    { rewrite case_of_cons, Erequired. reflexivity. }
    rewrite E7 in Hfields. cbn [orb].
    inversion Hfields; subst; clear Hfields.
    apply bool_decide_eq_true in Hhead.
    destruct (payload_ok_one _ _ _ Hp) as (v & -> & Hv).
    unfold get at 1. rewrite lookup_singleton_ne by discriminate.
    cbn [truthy negb].
    back_to_rule.
    rewrite (find_component_here _ c0 _ _ Hhead).
    rewrite get_singleton, (current_overlay _ c0 v Hv).
    reflexivity. }
  cbn [orb].
  assert (E7 : case_of (type t) ("column.required" :: string_array_rules)
               = case_of (type t) string_array_rules).
  { rewrite case_of_cons, Erequired. reflexivity. }
  rewrite E7 in Hfields.
  destruct (case_of (type t) string_array_rules) eqn:E8;
    [one_field Hfields Hp Hcomps | ].
  destruct (case_of (type t) ["column.comment"; "table.comment"]) eqn:E9;
    [two_fields Hfields Hp Hcomps | ].
  destruct (case_of (type t) number_rules) eqn:E10;
    [one_field Hfields Hp Hcomps | ].
  discriminate Hfields.
Qed.

(** The round trip of a [naming.table] rule. *)
Lemma round_trip_witness :
  well_formed table_rule table_template = true
  /\ type table_template <> "naming.identifier.case"
  /\ exists t',
       convertPolicyRuleToRuleTemplate table_rule table_template = Value t'
       /\ convertRuleTemplateToPolicyRule t' = Value table_rule.
Proof.
  assert (Hwf : well_formed table_rule table_template = true) by reflexivity.
  assert (Hcase : type table_template <> "naming.identifier.case") by discriminate.
  split; [exact Hwf | ]. split; [exact Hcase | ].
  exact (round_trip table_rule table_template Hwf Hcase).
Defined.

(** Scenario E: a rule type outside the table, on a template with a
    component, is an error in both directions. *)
Example scenario_E :
  convertPolicyRuleToRuleTemplate
    (stored "statement.unknown" (Some {[ "number" := JNumber 5 ]})) unknown_template
  = Throw "Invalid rule statement.unknown"
  /\ convertRuleTemplateToPolicyRule unknown_template
     = Throw "Invalid rule statement.unknown".
Proof. split; reflexivity. Qed.

(** The claim C10 fails as it is worded: a [columnList] that is present
    and holds null, or the empty text, gives way to [list] as an absent one
    does. *)
Lemma column_required_counterexample :
  (exists p,
      rule_payload (columns_rule JNull) = Some p
      /\ p !! "columnList" = Some JNull
      /\ p !! "list" = Some (JArray ["id"]))
  /\ convertPolicyRuleToRuleTemplate (columns_rule JNull) required_template
     = Value (template_with_value (JArray ["id"]))
  /\ convertPolicyRuleToRuleTemplate (columns_rule JNull) required_template
     <> Value (template_with_value JNull)
  /\ (exists p,
        rule_payload (columns_rule (JString EmptyString)) = Some p
        /\ p !! "columnList" = Some (JString EmptyString))
  /\ convertPolicyRuleToRuleTemplate (columns_rule (JString EmptyString))
       required_template
     = Value (template_with_value (JArray ["id"])).
Proof.
  split.
  { eexists. split; [reflexivity | ]. split; reflexivity. }
  split; [reflexivity | ].
  split; [discriminate | ].
  split.
  { eexists. split; reflexivity. }
  reflexivity.
Qed.

End rule_conversion.

(** * Further properties of the table-naming advisor *)

Module naming_walk.

Import advisor.
Import mssql.
Import naming.
Import traversal.

Section WithDeps.
Context `{Deps}.

Lemma with_advices_nil l : with_advices l (adviceList l ++ []) = l.
Proof. destruct l. unfold with_advices. simpl. rewrite app_nil_r. reflexivity. Qed.

Lemma name_advices_conforming l name line :
  MatchString (format l) name = true ->
  maxLength l <= 0 \/ len name <= maxLength l ->
  name_advices l name line = [].
Proof.
  intros Hformat Hlength. unfold name_advices. rewrite Hformat.
  destruct (Z.ltb_spec 0 (maxLength l)) as [Hpos | _]; [ | reflexivity].
  destruct (Z.ltb_spec (maxLength l) (len name)) as [Hlong | _]; [lia | reflexivity].
Qed.

(** A name that the format accepts and that is within the maximum, or has
    no maximum to respect, leaves the listener as it was, in a create-table
    node and as the new name of a rename alike. *)
Theorem conforming_name_adds_nothing l log name line :
  MatchString (format l) name = true ->
  maxLength l <= 0 \/ len name <= maxLength l ->
  EnterCreate_table l (create_table name line) = Done l
  /\ (forall proc old,
         NormalizedTSqlTableNamePart (Some proc) = Return "sp_rename" ->
         EnterExecute_body (l, log) (rename_call proc old ("'" +:+ name +:+ "'") line)
         = Done (l, log)).
Proof.
  intros Hformat Hlength.
  pose proof (name_advices_conforming l name line Hformat Hlength) as Hnone.
  split.
  - rewrite (naming_table.EnterCreate_table_eq l (create_table name line)
               {| parser.GetTable := Some name |} name eq_refl eq_refl).
    simpl parser.Create_table_Line. rewrite Hnone, with_advices_nil. reflexivity.
  - intros proc old Hproc.
    rewrite (naming_table.EnterExecute_body_rename_call _ _ _ _ _ _ Hproc).
    rewrite naming_table.unquote_quoted. simpl.
    rewrite Hnone, with_advices_nil. reflexivity.
Qed.

(** *** The walk enters the rule nodes in document order *)

Lemma enter_all_app st ctxs1 ctxs2 :
  enter_all st (ctxs1 ++ ctxs2)
  = exec_bind (enter_all st ctxs1) (fun st => enter_all st ctxs2).
Proof.
  revert st. induction ctxs1 as [ | ctx ctxs1 IH]; intros st; simpl.
  - reflexivity.
  - destruct (EnterRule st ctx) as [st' | msg]; simpl; [apply IH | reflexivity].
Qed.

Lemma Walk_enter_all t : forall st,
  Walk st t = enter_all st (rule_contexts t).
Proof.
  induction t as [ | | ctx children IH] using naming_table.Tree_ind_children;
    intros st.
  - reflexivity.
  - reflexivity.
  - rewrite naming_table.Walk_RuleNode. cbn [rule_contexts enter_all].
    destruct (EnterRule st ctx) as [st' | msg]; simpl; [ | reflexivity].
    revert st'. induction children as [ | child children IHchildren]; intros st'.
    + reflexivity.
    + inversion IH as [ | ? ? IHchild IHrest]; subst.
      cbn [Walk_children flat_map]. rewrite enter_all_app, IHchild.
      destruct (enter_all st' (rule_contexts child)) as [st'' | msg]; simpl;
        [apply IHchildren; assumption | reflexivity].
Qed.

Lemma enter_all_triggers ctxs : forall st,
  enter_all st ctxs = enter_all st (List.filter is_trigger ctxs).
Proof.
  induction ctxs as [ | ctx ctxs IH]; intros st.
  - reflexivity.
  - destruct ctx as [c | c | ]; cbn [List.filter is_trigger enter_all].
    + destruct (EnterRule st (parser.Create_table c)) as [st' | msg]; simpl;
        [apply IH | reflexivity].
    + destruct (EnterRule st (parser.Execute_body c)) as [st' | msg]; simpl;
        [apply IH | reflexivity].
    + cbn [EnterRule exec_bind]. apply IH.
Qed.

(** [Check] reads of the tree its create-table and call nodes only, in
    document order (a node before its children, the children from left to
    right): two trees with the same such nodes in that order get the same
    result under the same rule, whatever else they hold, however they nest
    and whatever the statement text is. *)
Theorem Check_reads_nodes_in_order log ctx1 ctx2 statement1 statement2 tree1 tree2 :
  ctx_AST ctx1 = AST_Tree tree1 ->
  ctx_AST ctx2 = AST_Tree tree2 ->
  Rule ctx1 = Rule ctx2 ->
  List.filter is_trigger (rule_contexts tree1)
  = List.filter is_trigger (rule_contexts tree2) ->
  Check log ctx1 statement1 = Check log ctx2 statement2.
Proof.
  intros Htree1 Htree2 Hrule Hnodes.
  rewrite !naming_table.Check_eq, Htree1, Htree2, Hrule.
  destruct (NewStatusBySQLReviewRuleLevel (Level (Rule ctx2))) as [lv | err];
    [ | reflexivity].
  destruct (UnmarshalNamingRulePayloadAsRegexp (Payload (Rule ctx2)))
    as [[re n] | err]; [ | reflexivity].
  rewrite !Walk_enter_all.
  rewrite (enter_all_triggers (rule_contexts tree1)).
  rewrite (enter_all_triggers (rule_contexts tree2)).
  rewrite Hnodes. reflexivity.
Qed.

(** *** What the handlers add *)

Lemma name_advices_of l name line lines :
  In (Some line) lines ->
  (length (name_advices l name line) <= 2)%nat
  /\ Forall (advice_of l lines) (name_advices l name line).
Proof.
  intros Hline. unfold name_advices.
  destruct (MatchString (format l) name);
    destruct ((0 <? maxLength l) && (maxLength l <? len name)); simpl;
    (split; [lia | ]); repeat constructor; assumption.
Qed.

Lemma EnterRule_effect l log ctx l' log' :
  EnterRule (l, log) ctx = Done (l', log') ->
  exists added lines,
    l' = with_advices l (adviceList l ++ added)
    /\ log' = (log ++ lines)%list
    /\ (length added <= if is_trigger ctx then 2 else 0)%nat
    /\ Forall (advice_of l [trigger_line ctx]) added
    /\ (length lines <= if is_call ctx then 1 else 0)%nat
    /\ Forall normalize_failure lines.
Proof.
  assert (Hnothing : exists added lines,
             l = with_advices l (adviceList l ++ added)
             /\ log = (log ++ lines)%list
             /\ (length added <= 0)%nat
             /\ Forall (advice_of l [trigger_line ctx]) added
             /\ (length lines <= 0)%nat
             /\ Forall normalize_failure lines).
  { exists [], []. rewrite with_advices_nil, app_nil_r.
    repeat split; try constructor. }
  destruct ctx as [c | c | ]; unfold EnterRule; cbn [fst snd is_trigger is_call].
  - destruct (parser.Table_name c) as [tn | ] eqn:Htn.
    2: { unfold EnterCreate_table. rewrite Htn. discriminate. }
    destruct (parser.GetTable tn) as [name | ] eqn:Hname.
    2: { unfold EnterCreate_table. rewrite Htn. simpl. rewrite Hname. discriminate. }
    rewrite (naming_table.EnterCreate_table_eq l c tn name Htn Hname). simpl.
    intros Heq. inversion Heq; subst.
    destruct (name_advices_of l name (parser.Create_table_Line c)
                [trigger_line (parser.Create_table c)] (or_introl eq_refl))
      as [Hlen Hall].
    exists (name_advices l name (parser.Create_table_Line c)), [].
    rewrite app_nil_r. repeat split; try assumption; try constructor.
  - rewrite naming_table.EnterExecute_body_eq.
    destruct Hnothing as (added0 & lines0 & Hl0 & Hlog0 & Ha0 & Hf0 & Hn0 & Hnf0).
    assert (Hsame : Done (l, log) = Done (l', log') ->
              exists added lines,
                l' = with_advices l (adviceList l ++ added)
                /\ log' = (log ++ lines)%list
                /\ (length added <= 2)%nat
                /\ Forall (advice_of l [trigger_line (parser.Execute_body c)]) added
                /\ (length lines <= 1)%nat
                /\ Forall normalize_failure lines).
    { intros Heq. inversion Heq; subst. exists added0, lines0.
      repeat split; try assumption; lia. }
    destruct (unqualified_procedure c) as [v | ]; [ | exact Hsame].
    destruct (NormalizedTSqlTableNamePart v) as [procedure | err].
    2: { intros Heq. inversion Heq; subst.
         exists [], ["failed to normalize procedure name: " +:+ err].
         rewrite with_advices_nil.
         split; [reflexivity | ]. split; [reflexivity | ].
         split; [simpl; lia | ]. split; [constructor | ].
         split; [simpl; lia | ].
         constructor; [exists err; reflexivity | constructor]. }
    destruct (String.eqb procedure "sp_rename"); [ | exact Hsame].
    destruct (new_name_literal c) as [text | ]; [ | exact Hsame].
    destruct (unquote text) as [name | msg]; simpl; [ | discriminate].
    intros Heq. inversion Heq; subst.
    destruct (name_advices_of l name (parser.Execute_body_Line c)
                [trigger_line (parser.Execute_body c)] (or_introl eq_refl))
      as [Hlen Hall].
    exists (name_advices l name (parser.Execute_body_Line c)), [].
    rewrite app_nil_r. repeat split; try assumption; try constructor; simpl; lia.
  - intros Heq. inversion Heq; subst. exact Hnothing.
Qed.

Lemma advice_of_weaken l l' lines lines' a :
  level l' = level l -> title l' = title l ->
  (forall x, In x lines -> In x lines') ->
  advice_of l' lines a -> advice_of l lines' a.
Proof.
  intros Hlevel Htitle Hsub (Hs & Hc & Ht & Hl).
  repeat split; try congruence. apply Hsub. exact Hl.
Qed.

Lemma enter_all_effect ctxs : forall l log l' log',
  enter_all (l, log) ctxs = Done (l', log') ->
  exists added lines,
    l' = with_advices l (adviceList l ++ added)
    /\ log' = (log ++ lines)%list
    /\ (length added <= 2 * length (List.filter is_trigger ctxs))%nat
    /\ Forall (advice_of l (map trigger_line ctxs)) added
    /\ (length lines <= length (List.filter is_call ctxs))%nat
    /\ Forall normalize_failure lines.
Proof.
  induction ctxs as [ | ctx ctxs IH]; intros l log l' log' Hrun; simpl in Hrun.
  - inversion Hrun; subst. exists [], [].
    rewrite with_advices_nil, app_nil_r. repeat split; try constructor.
  - destruct (EnterRule (l, log) ctx) as [[l1 log1] | msg] eqn:Henter;
      simpl in Hrun; [ | discriminate].
    destruct (EnterRule_effect l log ctx l1 log1 Henter)
      as (added1 & lines1 & -> & -> & Hlen1 & Hall1 & Hn1 & Hnf1).
    destruct (IH _ _ _ _ Hrun)
      as (added2 & lines2 & -> & -> & Hlen2 & Hall2 & Hn2 & Hnf2).
    exists (added1 ++ added2)%list, (lines1 ++ lines2)%list.
    split; [unfold with_advices; simpl; rewrite <- !app_assoc; reflexivity | ].
    split; [rewrite <- app_assoc; reflexivity | ].
    split.
    { rewrite length_app. cbn [List.filter].
      destruct (is_trigger ctx); simpl length in *; lia. }
    split.
    { apply Forall_app. split.
      - eapply Forall_impl; [exact Hall1 | ]. intros a.
        apply advice_of_weaken; try reflexivity.
        intros x [<- | []]. left. reflexivity.
      - eapply Forall_impl; [exact Hall2 | ]. intros a.
        apply advice_of_weaken; try reflexivity.
        intros x Hx. right. exact Hx. }
    split.
    { rewrite length_app. cbn [List.filter].
      destruct (is_call ctx); simpl length in *; lia. }
    apply Forall_app. split; assumption.
Qed.

(** The walk never changes the configuration of the listener, and it only
    appends: the advices and the log it started from are kept, in front.
    The lines it writes to the log are failures to normalise a procedure
    name, at most one per call node. *)
Theorem Walk_only_appends l log t l' log' :
  Walk (l, log) t = Done (l', log') ->
  level l' = level l /\ title l' = title l
  /\ format l' = format l /\ maxLength l' = maxLength l
  /\ (exists added, adviceList l' = (adviceList l ++ added)%list)
  /\ (exists lines,
        log' = (log ++ lines)%list
        /\ Forall normalize_failure lines
        /\ (length lines <= length (List.filter is_call (rule_contexts t)))%nat).
Proof.
  rewrite Walk_enter_all. intros Hrun.
  destruct (enter_all_effect _ _ _ _ _ Hrun)
    as (added & lines & -> & -> & _ & _ & Hn & Hnf).
  repeat split; try reflexivity.
  - exists added. reflexivity.
  - exists lines. repeat split; assumption.
Qed.

(** *** What [Check] returns *)

Lemma Check_Done log ctx statement advices err log' :
  Check log ctx statement = Done ((advices, err), log') ->
  (err <> None /\ advices = [] /\ log' = log)
  \/ (err = None
      /\ exists tree lv re n l',
          ctx_AST ctx = AST_Tree tree
          /\ NewStatusBySQLReviewRuleLevel (Level (Rule ctx)) = Return lv
          /\ UnmarshalNamingRulePayloadAsRegexp (Payload (Rule ctx)) = Return (re, n)
          /\ enter_all (new_listener lv (Type' (Rule ctx)) re n, log)
                       (rule_contexts tree) = Done (l', log')
          /\ advices = match adviceList l' with
                       | [] => [ok_advice]
                       | _ :: _ => adviceList l'
                       end).
Proof.
  rewrite naming_table.Check_eq.
  destruct (ctx_AST ctx) as [tree | ] eqn:Htree.
  2: { intros Heq. inversion Heq; subst. left.
       split; [discriminate | split; reflexivity]. }
  destruct (NewStatusBySQLReviewRuleLevel (Level (Rule ctx))) as [lv | e1] eqn:Hlv.
  2: { intros Heq. inversion Heq; subst. left.
       split; [discriminate | split; reflexivity]. }
  destruct (UnmarshalNamingRulePayloadAsRegexp (Payload (Rule ctx)))
    as [[re n] | e2] eqn:Hre.
  2: { intros Heq. inversion Heq; subst. left.
       split; [discriminate | split; reflexivity]. }
  rewrite Walk_enter_all.
  destruct (enter_all (new_listener lv (Type' (Rule ctx)) re n, log)
              (rule_contexts tree)) as [[l' lg] | msg] eqn:Hrun; simpl;
    [ | discriminate].
  rewrite naming_table.generateAdvice_eq. intros Heq. inversion Heq; subst.
  right. split; [reflexivity | ].
  exists tree, lv, re, n, l'.
  split; [reflexivity | ]. split; [reflexivity | ]. split; [reflexivity | ].
  split; [exact Hrun | reflexivity].
Qed.

(** An error of [Check] comes from its set-up only: with an error there is
    no advice and nothing was logged, and the tree was not a tree or the
    level or the payload of the rule was rejected. The walk never makes
    one. *)
Theorem Check_error_only_from_setup log ctx statement advices err log' :
  Check log ctx statement = Done ((advices, Some err), log') ->
  advices = [] /\ log' = log
  /\ (ctx_AST ctx = AST_Other
      \/ NewStatusBySQLReviewRuleLevel (Level (Rule ctx)) = Err err
      \/ exists lv,
           NewStatusBySQLReviewRuleLevel (Level (Rule ctx)) = Return lv
           /\ UnmarshalNamingRulePayloadAsRegexp (Payload (Rule ctx)) = Err err).
Proof.
  rewrite naming_table.Check_eq.
  destruct (ctx_AST ctx) as [tree | ].
  2: { intros Heq. inversion Heq; subst. repeat split. left. reflexivity. }
  destruct (NewStatusBySQLReviewRuleLevel (Level (Rule ctx))) as [lv | e1].
  2: { intros Heq. inversion Heq; subst. repeat split. right. left. reflexivity. }
  destruct (UnmarshalNamingRulePayloadAsRegexp (Payload (Rule ctx))) as [[re n] | e2].
  2: { intros Heq. inversion Heq; subst. repeat split. right. right.
       exists lv. split; reflexivity. }
  destruct (Walk (new_listener lv (Type' (Rule ctx)) re n, log) tree)
    as [[l' lg] | msg]; simpl; [ | discriminate].
  rewrite naming_table.generateAdvice_eq. discriminate.
Qed.

(** Without an error, the advices of [Check] are the single Success advice,
    or they all carry the status the level of the rule resolves to, the
    code of the naming mismatch, the type of the rule as their title, and
    the line of a create-table or call node of the tree. *)
Theorem Check_advices_of_rule log ctx statement advices log' :
  Check log ctx statement = Done ((advices, None), log') ->
  exists tree lv,
    ctx_AST ctx = AST_Tree tree
    /\ NewStatusBySQLReviewRuleLevel (Level (Rule ctx)) = Return lv
    /\ (advices = [ {| Status' := Success; Code' := Ok; Title := "OK";
                       Content := EmptyString; Line := 0 |} ]
        \/ (advices <> []
            /\ Forall (fun a =>
                         Status' a = lv
                         /\ Code' a = NamingTableConventionMismatch
                         /\ Title a = Type' (Rule ctx)
                         /\ In (Some (Line a))
                               (map trigger_line (rule_contexts tree)))
                      advices)).
Proof.
  intros Hcheck.
  destruct (Check_Done _ _ _ _ _ _ Hcheck)
    as [(Herr & _) | (_ & tree & lv & re & n & l' & Htree & Hlv & Hre & Hrun & ->)];
    [contradiction Herr; reflexivity | ].
  exists tree, lv. split; [exact Htree | ]. split; [exact Hlv | ].
  destruct (enter_all_effect _ _ _ _ _ Hrun)
    as (added & lines & -> & _ & _ & Hall & _ & _).
  simpl adviceList. destruct added as [ | a added]; [left; reflexivity | right].
  split; [discriminate | exact Hall].
Qed.

(** Without an error [Check] returns at most two advices for each
    create-table or call node of the tree, and one when there is none. *)
Theorem Check_advice_count log ctx statement advices log' :
  Check log ctx statement = Done ((advices, None), log') ->
  exists tree,
    ctx_AST ctx = AST_Tree tree
    /\ (1 <= length advices)%nat
    /\ (length advices
        <= Nat.max 1 (2 * length (List.filter is_trigger (rule_contexts tree))))%nat.
Proof.
  intros Hcheck.
  destruct (Check_Done _ _ _ _ _ _ Hcheck)
    as [(Herr & _) | (_ & tree & lv & re & n & l' & Htree & Hlv & Hre & Hrun & ->)];
    [contradiction Herr; reflexivity | ].
  exists tree. split; [exact Htree | ].
  destruct (enter_all_effect _ _ _ _ _ Hrun)
    as (added & lines & -> & _ & Hlen & _ & _ & _).
  simpl adviceList. destruct added as [ | a added]; simpl length in *; lia.
Qed.

(** *** When the handlers panic *)

Lemma unquote_lone_quote : unquote "'" = Panic slice_out_of_range.
Proof. reflexivity. Qed.

Lemma unquote_Panic text msg : unquote text = Panic msg -> text = "'".
Proof.
  intros Hpanic. destruct (String.eqb_spec text "'") as [Heq | Hne]; [exact Heq | ].
  apply String.eqb_neq in Hne.
  destruct (naming_table.unquote_Done text Hne) as [name Hname].
  rewrite Hname in Hpanic. discriminate.
Qed.

Lemma EnterRule_panics st ctx :
  (exists msg, EnterRule st ctx = Panic msg) <-> faulty ctx = true.
Proof.
  destruct st as [l log].
  destruct ctx as [c | c | ]; unfold EnterRule, faulty; cbn [fst snd].
  - unfold EnterCreate_table.
    destruct (parser.Table_name c) as [tn | ]; simpl.
    2: { split; [reflexivity | intros _; eexists; reflexivity]. }
    destruct (parser.GetTable tn) as [name | ]; simpl.
    2: { split; [reflexivity | intros _; eexists; reflexivity]. }
    split; [intros [msg Hmsg]; discriminate | discriminate].
  - rewrite naming_table.EnterExecute_body_eq.
    destruct (unqualified_procedure c) as [v | ].
    2: { split; [intros [msg Hmsg]; discriminate | discriminate]. }
    destruct (NormalizedTSqlTableNamePart v) as [procedure | err].
    2: { split; [intros [msg Hmsg]; discriminate | discriminate]. }
    destruct (String.eqb procedure "sp_rename"); simpl.
    2: { split; [intros [msg Hmsg]; discriminate | discriminate]. }
    destruct (new_name_literal c) as [text | ].
    2: { split; [intros [msg Hmsg]; discriminate | discriminate]. }
    split.
    + intros [msg Hmsg]. destruct (unquote text) as [name | msg'] eqn:Hu;
        simpl in Hmsg; [discriminate | ].
      apply unquote_Panic in Hu. subst text. reflexivity.
    + intros Heq. apply String.eqb_eq in Heq. subst text.
      rewrite unquote_lone_quote. eexists; reflexivity.
  - split; [intros [msg Hmsg]; discriminate | discriminate].
Qed.

Lemma enter_all_panics ctxs : forall st,
  (exists msg, enter_all st ctxs = Panic msg) <-> existsb faulty ctxs = true.
Proof.
  induction ctxs as [ | ctx ctxs IH]; intros st; simpl.
  - split; [intros [msg Hmsg]; discriminate | discriminate].
  - destruct (EnterRule st ctx) as [st' | msg] eqn:Henter; simpl.
    + assert (Hok : faulty ctx = false).
      { destruct (faulty ctx) eqn:Hf; [ | reflexivity].
        apply (EnterRule_panics st ctx) in Hf as [msg Hmsg].
        rewrite Hmsg in Henter. discriminate. }
      rewrite Hok. simpl. apply IH.
    + assert (Hbad : faulty ctx = true).
      { apply (EnterRule_panics st ctx). exists msg. exact Henter. }
      rewrite Hbad. simpl. split; [reflexivity | intros _; eexists; reflexivity].
Qed.

(** [Check] panics exactly when its set-up succeeds and the tree holds a
    create-table node without its table identifier or a call of
    [sp_rename] whose new-name literal is the lone quote. *)
Theorem Check_panics_iff log ctx statement :
  (exists msg, Check log ctx statement = Panic msg)
  <-> exists tree lv re n,
        ctx_AST ctx = AST_Tree tree
        /\ NewStatusBySQLReviewRuleLevel (Level (Rule ctx)) = Return lv
        /\ UnmarshalNamingRulePayloadAsRegexp (Payload (Rule ctx)) = Return (re, n)
        /\ existsb faulty (rule_contexts tree) = true.
Proof.
  rewrite naming_table.Check_eq. split.
  - intros [msg Hmsg].
    destruct (ctx_AST ctx) as [tree | ]; [ | discriminate].
    destruct (NewStatusBySQLReviewRuleLevel (Level (Rule ctx))) as [lv | e1];
      [ | discriminate].
    destruct (UnmarshalNamingRulePayloadAsRegexp (Payload (Rule ctx)))
      as [[re n] | e2]; [ | discriminate].
    exists tree, lv, re, n. repeat split.
    rewrite Walk_enter_all in Hmsg.
    apply (enter_all_panics _ (new_listener lv (Type' (Rule ctx)) re n, log)).
    destruct (enter_all (new_listener lv (Type' (Rule ctx)) re n, log)
                (rule_contexts tree)) as [st | msg'];
      [discriminate | eexists; reflexivity].
  - intros (tree & lv & re & n & -> & -> & -> & Hfaulty).
    rewrite Walk_enter_all.
    apply (enter_all_panics _ (new_listener lv (Type' (Rule ctx)) re n, log))
      in Hfaulty as [msg Hmsg].
    rewrite Hmsg. eexists; reflexivity.
Qed.

End WithDeps.

(** *** At the scenarios *)

Import scenario.

Lemma conforming_name_adds_nothing_witness :
  MatchString (format (listener snake 64)) "orders_history" = true
  /\ (maxLength (listener snake 64) <= 0
      \/ len "orders_history" <= maxLength (listener snake 64))
  /\ EnterCreate_table (listener snake 64) (create_table "orders_history" 1)
     = Done (listener snake 64)
  /\ EnterExecute_body (listener snake 64, [])
       (rename_call "sp_rename" "'old'" "'orders_history'" 1)
     = Done (listener snake 64, []).
Proof.
  assert (Hformat : MatchString (format (listener snake 64)) "orders_history" = true)
    by reflexivity.
  assert (Hlength : maxLength (listener snake 64) <= 0
                    \/ len "orders_history" <= maxLength (listener snake 64)).
  { right. vm_compute. discriminate. }
  destruct (conforming_name_adds_nothing (listener snake 64) [] "orders_history" 1
              Hformat Hlength) as (Hcreate & Hrename).
  split; [exact Hformat | ]. split; [exact Hlength | ].
  split; [exact Hcreate | ].
  exact (Hrename "sp_rename" "'old'" eq_refl).
Defined.

Lemma Check_reads_nodes_in_order_witness :
  List.filter is_trigger (rule_contexts tree_A)
  = List.filter is_trigger (rule_contexts tree_A_below)
  /\ Check [] (context tree_A snake 0) "CREATE TABLE UserOrders (id INT);"
     = Check [] (context tree_A_below snake 0) "CREATE TABLE UserOrders (id INT)".
Proof.
  assert (Hnodes : List.filter is_trigger (rule_contexts tree_A)
                   = List.filter is_trigger (rule_contexts tree_A_below))
    by reflexivity.
  split; [exact Hnodes | ].
  exact (Check_reads_nodes_in_order [] (context tree_A snake 0)
           (context tree_A_below snake 0) _ _ tree_A tree_A_below
           eq_refl eq_refl eq_refl Hnodes).
Defined.

Lemma Walk_only_appends_witness :
  Walk (listener snake 0, ["an earlier line"]) tree_C
  = Done (with_advices (listener snake 0) [format_finding "NewTable"],
          ["an earlier line"])
  /\ level (with_advices (listener snake 0) [format_finding "NewTable"])
     = level (listener snake 0)
  /\ exists added,
       adviceList (with_advices (listener snake 0) [format_finding "NewTable"])
       = (adviceList (listener snake 0) ++ added)%list.
Proof.
  assert (Hwalk : Walk (listener snake 0, ["an earlier line"]) tree_C
                  = Done (with_advices (listener snake 0) [format_finding "NewTable"],
                          ["an earlier line"])) by reflexivity.
  destruct (Walk_only_appends _ _ _ _ _ Hwalk) as (Hlevel & _ & _ & _ & Hadded & _).
  split; [exact Hwalk | ]. split; [exact Hlevel | exact Hadded].
Defined.

Lemma Check_error_only_from_setup_witness :
  Check ["an earlier line"] (context tree_A "[a-z" 0) "CREATE TABLE UserOrders (id INT);"
  = Done (([], Some "error parsing regexp: [a-z"), ["an earlier line"])
  /\ @nil Advice = [] /\ ["an earlier line"] = ["an earlier line"].
Proof.
  assert (Hcheck : Check ["an earlier line"] (context tree_A "[a-z" 0)
                     "CREATE TABLE UserOrders (id INT);"
                   = Done (([], Some "error parsing regexp: [a-z"), ["an earlier line"]))
    by reflexivity.
  destruct (Check_error_only_from_setup _ _ _ _ _ _ Hcheck) as (Hnone & Hlog & _).
  split; [exact Hcheck | ]. split; [exact Hnone | exact Hlog].
Defined.

Lemma Check_advices_of_rule_witness :
  Check [] (context tree_B snake 5) "CREATE TABLE orders_history (id INT);"
  = Done (([length_finding "orders_history" "5"], None), [])
  /\ exists tree lv,
       ctx_AST (context tree_B snake 5) = AST_Tree tree
       /\ NewStatusBySQLReviewRuleLevel (Level (Rule (context tree_B snake 5)))
          = Return lv.
Proof.
  assert (Hcheck : Check [] (context tree_B snake 5)
                     "CREATE TABLE orders_history (id INT);"
                   = Done (([length_finding "orders_history" "5"], None), []))
    by (vm_compute; reflexivity).
  destruct (Check_advices_of_rule _ _ _ _ _ Hcheck) as (tree & lv & Htree & Hlv & _).
  split; [exact Hcheck | ]. exists tree, lv. split; assumption.
Defined.

Lemma Check_advice_count_witness :
  Check [] (context tree_A snake 5) "CREATE TABLE UserOrders (id INT);"
  = Done (([format_finding "UserOrders"; length_finding "UserOrders" "5"], None), [])
  /\ exists tree,
       ctx_AST (context tree_A snake 5) = AST_Tree tree
       /\ (length [format_finding "UserOrders"; length_finding "UserOrders" "5"]
           <= Nat.max 1 (2 * length (List.filter is_trigger (rule_contexts tree))))%nat.
Proof.
  assert (Hcheck : Check [] (context tree_A snake 5)
                     "CREATE TABLE UserOrders (id INT);"
                   = Done (([format_finding "UserOrders";
                             length_finding "UserOrders" "5"], None), []))
    by (vm_compute; reflexivity).
  destruct (Check_advice_count _ _ _ _ _ Hcheck) as (tree & Htree & _ & Hmax).
  split; [exact Hcheck | ]. exists tree. split; assumption.
Defined.

Lemma Check_panics_iff_witness :
  existsb faulty (rule_contexts tree_without_table) = true
  /\ exists msg,
       Check [] (context tree_without_table snake 0) "CREATE TABLE BLOCKING_HIERARCHY (id INT);"
       = Panic msg.
Proof.
  split; [reflexivity | ].
  apply (Check_panics_iff [] (context tree_without_table snake 0)
           "CREATE TABLE BLOCKING_HIERARCHY (id INT);").
  exists tree_without_table, Warn, (compiled snake), 63.
  repeat split; reflexivity.
Defined.

End naming_walk.

(** * Further properties of the rule conversion *)

Module rule_conversion_cases.

Import sqlReview.
Import conversion.

(** Decide a [case] group by the components that are found. *)
Ltac by_found :=
  cbn [option_map map snd forallb negb andb];
  repeat match goal with
         | |- context [find_component ?k ?l] => destruct (find_component k l)
         end;
  cbn [negb andb]; cbv beta iota;
  first [reflexivity | eexists; reflexivity].

Ltac each_case :=
  repeat match goal with
         | |- context [if case_of ?ty ?labels then _ else _] =>
             destruct (case_of ty labels); [by_found | ]
         end.

Lemma to_rule_cases t :
  componentList t <> [] ->
  if misconfigured t
  then convertRuleTemplateToPolicyRule t = Throw (invalid_rule (type t))
  else exists r, convertRuleTemplateToPolicyRule t = Value r.
Proof.
  intros Hne.
  unfold convertRuleTemplateToPolicyRule, mergeIndividualConfigAsRule, find_payload,
    misconfigured, required_components, payload_fields, has_component.
  cbv zeta.
  destruct (componentList t) as [ | c0 rest] eqn:Hlist; [contradiction | ].
  cbn [length Nat.eqb].
  each_case. reflexivity.
Qed.

(** The conversion of a template to a stored rule throws exactly when the
    template has components and lacks one that its rule type requires, or
    has components and a rule type outside the table; the message is always
    [Invalid rule] followed by the rule type. *)
Theorem to_rule_throws_iff t :
  (convertRuleTemplateToPolicyRule t = Throw (invalid_rule (type t))
   <-> componentList t <> [] /\ misconfigured t = true)
  /\ (forall msg,
         convertRuleTemplateToPolicyRule t = Throw msg ->
         msg = invalid_rule (type t)).
Proof.
  assert (Hempty : componentList t = [] ->
                   exists r, convertRuleTemplateToPolicyRule t = Value r).
  { intros Hnil. unfold convertRuleTemplateToPolicyRule. rewrite Hnil.
    eexists; reflexivity. }
  split; [split | ].
  - intros Hthrow. destruct (componentList t) as [ | c0 rest] eqn:Hlist.
    + destruct (Hempty eq_refl) as [r Hr]. rewrite Hr in Hthrow. discriminate.
    + split; [discriminate | ].
      assert (Hne : componentList t <> []) by (rewrite Hlist; discriminate).
      pose proof (to_rule_cases t Hne) as Hcases.
      destruct (misconfigured t); [reflexivity | ].
      destruct Hcases as [r Hr]. rewrite Hr in Hthrow. discriminate.
  - intros [Hne Hmis]. pose proof (to_rule_cases t Hne) as Hcases.
    rewrite Hmis in Hcases. exact Hcases.
  - intros msg Hthrow. destruct (componentList t) as [ | c0 rest] eqn:Hlist.
    + destruct (Hempty eq_refl) as [r Hr]. rewrite Hr in Hthrow. discriminate.
    + assert (Hne : componentList t <> []) by (rewrite Hlist; discriminate).
      pose proof (to_rule_cases t Hne) as Hcases.
      destruct (misconfigured t).
      * rewrite Hcases in Hthrow. inversion Hthrow. reflexivity.
      * destruct Hcases as [r Hr]. rewrite Hr in Hthrow. discriminate.
Qed.

Lemma to_template_cases r t :
  rule_type r = type t ->
  componentList t <> [] ->
  type t <> "column.required" ->
  if misconfigured t
  then convertPolicyRuleToRuleTemplate r t = Throw (invalid_rule (type t))
  else exists t', convertPolicyRuleToRuleTemplate r t = Value t'.
Proof.
  intros Hty Hne Hcol.
  unfold convertPolicyRuleToRuleTemplate.
  rewrite Hty, String.eqb_refl. cbn [negb]. cbv zeta.
  unfold misconfigured, required_components, payload_fields, has_component.
  destruct (componentList t) as [ | c0 rest] eqn:Hlist; [contradiction | ].
  cbn [length Nat.eqb].
  apply String.eqb_neq in Hcol.
  rewrite (rule_conversion.case_of_cons (type t) "column.required" string_array_rules).
  change (case_of (type t) ["column.required"])
    with (String.eqb (type t) "column.required" || false).
  rewrite Hcol. cbn [orb].
  each_case. reflexivity.
Qed.

(** The conversion of a stored rule to a template throws exactly when the
    types differ, or the template has components and, for a rule type
    other than [column.required], lacks a required one or is outside the
    table. For [column.required] with components it never throws. *)
Theorem to_template_throws_iff r t :
  (exists msg, convertPolicyRuleToRuleTemplate r t = Throw msg)
  <-> rule_type r <> type t
      \/ (componentList t <> [] /\ type t <> "column.required"
          /\ misconfigured t = true).
Proof.
  split.
  - intros [msg Hthrow].
    destruct (String.eqb_spec (rule_type r) (type t)) as [Hty | Hty];
      [right | left; exact Hty].
    destruct (componentList t) as [ | c0 rest] eqn:Hlist.
    { unfold convertPolicyRuleToRuleTemplate in Hthrow.
      rewrite Hty, String.eqb_refl, Hlist in Hthrow. discriminate. }
    split; [discriminate | ].
    destruct (String.eqb_spec (type t) "column.required") as [Hcol | Hcol].
    { unfold convertPolicyRuleToRuleTemplate in Hthrow.
      rewrite Hty, String.eqb_refl, Hlist, Hcol in Hthrow. discriminate. }
    split; [exact Hcol | ].
    assert (Hne : componentList t <> []) by (rewrite Hlist; discriminate).
    pose proof (to_template_cases r t Hty Hne Hcol) as Hcases.
    destruct (misconfigured t); [reflexivity | ].
    destruct Hcases as [t' Ht']. rewrite Ht' in Hthrow. discriminate.
  - intros [Hty | (Hne & Hcol & Hmis)].
    + eexists. apply rule_conversion.to_template_type_mismatch. exact Hty.
    + destruct (String.eqb_spec (rule_type r) (type t)) as [Hty | Hty].
      * pose proof (to_template_cases r t Hty Hne Hcol) as Hcases.
        rewrite Hmis in Hcases. eexists. exact Hcases.
      * eexists. apply rule_conversion.to_template_type_mismatch. exact Hty.
Qed.

(** *** What a conversion that succeeds returns *)

Ltac found_components H :=
  repeat match type of H with
         | context [find_component ?k ?l] =>
             let Hfind := fresh "Hfind" in
             destruct (find_component k l) eqn:Hfind
         end.

Ltac payload_branch H :=
  cbv beta iota in H; found_components H; try discriminate H;
  inversion H; subst; clear H;
  cbn [rule_type rule_level rule_engine rule_comment rule_payload with_rule_payload];
  repeat split;
  eexists _, _; split; [reflexivity | ]; split; [reflexivity | ];
  split;
  [ cbn [map fst list_to_set foldr];
    rewrite ?dom_insert_L, ?dom_singleton_L; set_solver
  | repeat constructor; eexists; (split; [eassumption | ]);
    cbn [fst snd];
    first [ apply lookup_singleton_eq
          | apply lookup_insert_eq
          | rewrite lookup_insert_ne by discriminate; apply lookup_singleton_eq ] ].

(** A stored rule made from a template takes its type, level and engine
    from the template and its comment too, empty when the template has
    none. It has no payload when the template has no component; otherwise
    its payload has exactly the keys of its rule type, each holding the
    current value of the first component of the kind of that key: the
    value when it is set, the default when it is undefined or null. *)
Theorem to_rule_payload t r :
  convertRuleTemplateToPolicyRule t = Value r ->
  rule_type r = type t /\ rule_level r = level t /\ rule_engine r = engine t
  /\ rule_comment r = match comment t with Some c => c | None => EmptyString end
  /\ match componentList t with
     | [] => rule_payload r = None
     | _ :: _ =>
         exists fields (p : JsObject),
           payload_fields (type t) = Some fields
           /\ rule_payload r = Some p
           /\ dom p = list_to_set (map fst fields)
           /\ Forall (fun f =>
                        exists c,
                          find_component (snd f) (componentList t) = Some c
                          /\ p !! fst f = Some (current (component_payload c)))
                     fields
     end.
Proof.
  unfold convertRuleTemplateToPolicyRule, mergeIndividualConfigAsRule, find_payload,
    payload_fields.
  cbv zeta. intros Hrule.
  destruct (componentList t) as [ | c0 rest] eqn:Hlist.
  { cbn [length Nat.eqb] in Hrule. inversion Hrule; subst. repeat split. }
  cbn [length Nat.eqb] in Hrule.
  repeat match type of Hrule with
         | context [if case_of ?ty ?labels then _ else _] =>
             destruct (case_of ty labels); [payload_branch Hrule | ]
         end.
  discriminate Hrule.
Qed.

Ltac found_in_list :=
  repeat match goal with
         | Hf : find_component _ _ = Some _ |- _ =>
             unfold find_component in Hf; apply find_some in Hf as [Hf _]
         end.

Ltac template_branch H :=
  cbv beta iota in H; found_components H; try discriminate H;
  inversion H; subst; clear H;
  cbn [type category engine level comment componentList with_componentList length];
  found_in_list;
  repeat split; try discriminate; try (cbn; lia);
  repeat match goal with
         | |- Forall _ (overlay ?x _ :: _) =>
             constructor;
             [ exists x; split;
               [ first [assumption | left; reflexivity] | repeat split; reflexivity ]
             | ]
         | |- Forall _ (with_payload ?x _ :: _) =>
             constructor;
             [ exists x; split;
               [ first [assumption | left; reflexivity] | repeat split; reflexivity ]
             | ]
         end;
  try constructor.

(** A template made from a stored rule takes its type and category from
    the template it was made with and its engine, level and comment from
    the rule. Its components are components of that template in which
    nothing but the current value may differ; there are at most two of
    them, and none exactly when the template had none. *)
Theorem to_template_components r t t' :
  convertPolicyRuleToRuleTemplate r t = Value t' ->
  type t' = type t /\ category t' = category t
  /\ engine t' = rule_engine r /\ level t' = rule_level r
  /\ comment t' = Some (rule_comment r)
  /\ (length (componentList t') <= 2)%nat
  /\ (componentList t' = [] <-> componentList t = [])
  /\ Forall (fun c' =>
               exists c,
                 In c (componentList t)
                 /\ key c' = key c
                 /\ payload_type (component_payload c')
                    = payload_type (component_payload c)
                 /\ payload_default (component_payload c')
                    = payload_default (component_payload c)
                 /\ templateList (component_payload c')
                    = templateList (component_payload c))
            (componentList t').
Proof.
  unfold convertPolicyRuleToRuleTemplate. cbv zeta. intros Htemplate.
  destruct (String.eqb (rule_type r) (type t)); cbn [negb] in Htemplate;
    [ | discriminate].
  destruct (componentList t) as [ | c0 rest] eqn:Hlist.
  { cbn [length Nat.eqb] in Htemplate. inversion Htemplate; subst.
    cbn. repeat split; try lia. constructor. }
  cbn [length Nat.eqb] in Htemplate.
  repeat match type of Htemplate with
         | context [if case_of ?ty ?labels then _ else _] =>
             destruct (case_of ty labels); [template_branch Htemplate | ]
         end.
  discriminate Htemplate.
Qed.

(** *** From a template to a stored rule and back *)

Lemma current_overlay_current c c' :
  payload_default (component_payload c) = payload_default (component_payload c') ->
  current (component_payload (overlay c (current (component_payload c'))))
  = current (component_payload c').
Proof.
  intros Hdefault. unfold current. cbn. rewrite Hdefault.
  destruct (payload_value (component_payload c')); try reflexivity;
    cbn; destruct (payload_default (component_payload c')); reflexivity.
Qed.

Lemma with_payload_same c : with_payload c (component_payload c) = c.
Proof. destruct c. reflexivity. Qed.

Lemma find_component_head kd c l :
  payload_type (component_payload c) = kd ->
  find_component kd (c :: l) = Some c.
Proof.
  intros Hkind. unfold find_component. cbn [find].
  rewrite bool_decide_eq_true_2 by exact Hkind. reflexivity.
Qed.

Ltac use_found :=
  repeat match goal with
         | Hf : find_component ?k ?l = Some _ |- context [find_component ?k ?l] =>
             rewrite Hf
         end.

Ltac to_template_of Hlist :=
  unfold convertPolicyRuleToRuleTemplate;
  cbn [rule_type rule_level rule_engine rule_comment rule_payload with_rule_payload];
  rewrite String.eqb_refl; cbn [negb]; cbv zeta;
  rewrite Hlist; cbn [length Nat.eqb];
  rule_conversion.rewrite_cases; cbn [orb]; use_found.

Ltac reverse_branch Hrule Hlist :=
  cbv beta iota in Hrule; found_components Hrule; try discriminate Hrule;
  inversion Hrule; subst; clear Hrule;
  to_template_of Hlist;
  rule_conversion.back_to_rule;
  rewrite ?with_payload_same;
  repeat first
    [ rewrite rule_conversion.find_component_here
        by (eapply rule_conversion.find_component_kind; eassumption)
    | rewrite rule_conversion.find_component_next
        by (erewrite rule_conversion.find_component_kind by eassumption; discriminate)
    | rewrite find_component_head
        by (eapply rule_conversion.find_component_kind; eassumption) ];
  rewrite ?rule_conversion.get_insert;
  rewrite ?rule_conversion.get_insert_ne by discriminate;
  rewrite ?rule_conversion.get_singleton;
  rewrite ?current_overlay_current by reflexivity;
  reflexivity.

(** A stored rule made from a template is kept by the round trip through
    that template, for every rule type: converting it to a template and
    that template to a stored rule gives the same stored rule. For
    [column.required] the first component of the template has to be the
    list. *)
Theorem template_round_trip t r :
  convertRuleTemplateToPolicyRule t = Value r ->
  head_ok t = true ->
  exists t',
    convertPolicyRuleToRuleTemplate r t = Value t'
    /\ convertRuleTemplateToPolicyRule t' = Value r.
Proof.
  unfold convertRuleTemplateToPolicyRule at 1.
  unfold mergeIndividualConfigAsRule, find_payload, head_ok.
  cbv zeta. intros Hrule Hhead.
  destruct (componentList t) as [ | c0 rest] eqn:Hlist.
  { cbn [length Nat.eqb] in Hrule. inversion Hrule; subst.
    unfold convertPolicyRuleToRuleTemplate. cbn [rule_type].
    rewrite String.eqb_refl, Hlist. cbn.
    eexists. split; [reflexivity | ].
    unfold convertRuleTemplateToPolicyRule. cbn. reflexivity. }
  cbn [length Nat.eqb] in Hrule.
  destruct (case_of (type t) ["statement.query.minimum-plan-level"]) eqn:E1;
    [reverse_branch Hrule Hlist | ].
  destruct (case_of (type t) ["table.drop-naming-convention"]) eqn:E2;
    [reverse_branch Hrule Hlist | ].
  destruct (case_of (type t)
              ["naming.column"; "naming.column.auto-increment"; "naming.table"]) eqn:E3;
    [reverse_branch Hrule Hlist | ].
  destruct (case_of (type t) ["naming.index.pk"]) eqn:E4;
    [reverse_branch Hrule Hlist | ].
  destruct (case_of (type t)
              ["naming.index.idx"; "naming.index.uk"; "naming.index.fk"]) eqn:E5;
    [reverse_branch Hrule Hlist | ].
  destruct (case_of (type t) ["naming.identifier.case"]) eqn:E6;
    [reverse_branch Hrule Hlist | ].
  rewrite (rule_conversion.case_of_cons (type t) "column.required" string_array_rules)
    in Hrule.
  assert (E7 : case_of (type t) ["column.required"]
               = String.eqb (type t) "column.required").
  { unfold case_of. cbn [existsb]. apply orb_false_r. }
  destruct (String.eqb (type t) "column.required") eqn:Erequired.
  { cbn [orb] in Hrule. apply bool_decide_eq_true in Hhead.
    rewrite (find_component_head _ c0 rest Hhead) in Hrule.
    inversion Hrule; subst; clear Hrule.
    assert (E7' : case_of (type t) ("column.required" :: string_array_rules) = true).
    { rewrite rule_conversion.case_of_cons, Erequired. reflexivity. }
    to_template_of Hlist.
    unfold get at 1. rewrite lookup_singleton_ne by discriminate.
    cbn [truthy negb].
    rule_conversion.back_to_rule.
    rewrite (rule_conversion.find_component_here _ c0 _ _ Hhead).
    rewrite rule_conversion.get_singleton.
    rewrite current_overlay_current by reflexivity.
    reflexivity. }
  cbn [orb] in Hrule.
  assert (E7' : case_of (type t) ("column.required" :: string_array_rules)
                = case_of (type t) string_array_rules).
  { rewrite rule_conversion.case_of_cons, Erequired. reflexivity. }
  destruct (case_of (type t) string_array_rules) eqn:E8;
    [reverse_branch Hrule Hlist | ].
  destruct (case_of (type t) ["column.comment"; "table.comment"]) eqn:E9;
    [reverse_branch Hrule Hlist | ].
  destruct (case_of (type t) number_rules) eqn:E10;
    [reverse_branch Hrule Hlist | ].
  discriminate Hrule.
Qed.

(** *** At the sample templates *)

Lemma to_rule_throws_iff_witness :
  componentList number_only_table_template <> []
  /\ misconfigured number_only_table_template = true
  /\ convertRuleTemplateToPolicyRule number_only_table_template
     = Throw (invalid_rule (type number_only_table_template)).
Proof.
  assert (Hne : componentList number_only_table_template <> []) by discriminate.
  assert (Hmis : misconfigured number_only_table_template = true) by reflexivity.
  split; [exact Hne | ]. split; [exact Hmis | ].
  apply (proj1 (to_rule_throws_iff number_only_table_template)).
  split; assumption.
Defined.

Lemma to_template_throws_iff_witness :
  rule_type case_rule <> type table_template
  /\ exists msg, convertPolicyRuleToRuleTemplate case_rule table_template = Throw msg.
Proof.
  assert (Hty : rule_type case_rule <> type table_template) by discriminate.
  split; [exact Hty | ].
  apply (proj2 (to_template_throws_iff case_rule table_template)).
  left. exact Hty.
Defined.

Lemma to_rule_payload_witness :
  convertRuleTemplateToPolicyRule table_template
  = Value (stored_as "naming.table" WARNING
             (Some (<["format" := JString "^[a-z]+(_[a-z]+)*$"]>
                      {[ "maxLength" := JNumber 64 ]})))
  /\ rule_type (stored_as "naming.table" WARNING
                  (Some (<["format" := JString "^[a-z]+(_[a-z]+)*$"]>
                           {[ "maxLength" := JNumber 64 ]})))
     = type table_template.
Proof.
  assert (Hrule : convertRuleTemplateToPolicyRule table_template
                  = Value (stored_as "naming.table" WARNING
                             (Some (<["format" := JString "^[a-z]+(_[a-z]+)*$"]>
                                      {[ "maxLength" := JNumber 64 ]}))))
    by reflexivity.
  split; [exact Hrule | ].
  exact (proj1 (to_rule_payload _ _ Hrule)).
Defined.

Lemma to_template_components_witness :
  exists t',
    convertPolicyRuleToRuleTemplate table_rule table_template = Value t'
    /\ type t' = type table_template
    /\ (length (componentList t') <= 2)%nat.
Proof.
  destruct (convertPolicyRuleToRuleTemplate table_rule table_template)
    as [t' | msg] eqn:Htemplate; [ | discriminate Htemplate].
  exists t'. split; [reflexivity | ].
  destruct (to_template_components _ _ _ Htemplate) as (Htype & _ & _ & _ & _ & Hlen & _).
  split; assumption.
Defined.

Lemma template_round_trip_witness :
  convertRuleTemplateToPolicyRule case_template
  = Value (stored_as "naming.identifier.case" WARNING
             (Some {[ "upper" := JBool false ]}))
  /\ head_ok case_template = true
  /\ exists t',
       convertPolicyRuleToRuleTemplate
         (stored_as "naming.identifier.case" WARNING
            (Some {[ "upper" := JBool false ]})) case_template = Value t'
       /\ convertRuleTemplateToPolicyRule t'
          = Value (stored_as "naming.identifier.case" WARNING
                     (Some {[ "upper" := JBool false ]})).
Proof.
  assert (Hrule : convertRuleTemplateToPolicyRule case_template
                  = Value (stored_as "naming.identifier.case" WARNING
                             (Some {[ "upper" := JBool false ]})))
    by reflexivity.
  split; [exact Hrule | ]. split; [reflexivity | ].
  exact (template_round_trip _ _ Hrule eq_refl).
Defined.

End rule_conversion_cases.

(** * Properties of the localization keys, the categories and the template map *)

Module catalog_properties.

Import sqlReview.
Import catalog.

(** *** Localization keys *)

Lemma split_not_nil sep s : split sep s <> [].
Proof.
  destruct s as [ | c s]; simpl; [discriminate | ].
  destruct (Ascii.eqb c sep); [discriminate | ].
  destruct (split sep s); discriminate.
Qed.

Lemma concat_cons sep piece pieces :
  pieces <> [] ->
  String.concat sep (piece :: pieces) = piece +:+ sep +:+ String.concat sep pieces.
Proof. destruct pieces; [contradiction | reflexivity]. Qed.

Lemma join_split a b s :
  join (String b EmptyString) (split a s) = replace_all a b s.
Proof.
  unfold join. induction s as [ | c s IH]; [reflexivity | ].
  cbn [split replace_all]. destruct (Ascii.eqb c a).
  - rewrite concat_cons by apply split_not_nil. rewrite IH. reflexivity.
  - destruct (split a s) as [ | piece pieces] eqn:Hsplit.
    + contradiction (split_not_nil a s).
    + rewrite <- IH. destruct pieces as [ | piece' pieces]; reflexivity.
Qed.

Lemma replace_all_length a b s :
  String.length (replace_all a b s) = String.length s.
Proof. induction s as [ | c s IH]; simpl; [reflexivity | rewrite IH; reflexivity]. Qed.

Lemma replace_all_get a b s i :
  String.get i (replace_all a b s)
  = match String.get i s with
    | Some c => Some (if Ascii.eqb c a then b else c)
    | None => None
    end.
Proof.
  revert i. induction s as [ | c s IH]; intros i; simpl; [reflexivity | ].
  destruct i as [ | i]; [reflexivity | apply IH].
Qed.

(** The localization key of a rule type is the type with every dot
    replaced by a hyphen: it has the length of the type, the same
    characters wherever the type has no dot, and no dot. *)
Theorem localization_key type :
  getRuleLocalizationKey type = replace_all "." "-" type
  /\ String.length (getRuleLocalizationKey type) = String.length type
  /\ (forall i, String.get i (getRuleLocalizationKey type)
                = match String.get i type with
                  | Some c => Some (if Ascii.eqb c "." then "-"%char else c)
                  | None => None
                  end)
  /\ (forall i, String.get i (getRuleLocalizationKey type) <> Some "."%char).
Proof.
  assert (Hkey : getRuleLocalizationKey type = replace_all "." "-" type)
    by apply (join_split "." "-" type).
  split; [exact Hkey | ]. rewrite Hkey.
  split; [apply replace_all_length | ].
  split; [apply replace_all_get | ].
  intros i. rewrite replace_all_get.
  destruct (String.get i type) as [c | ]; [ | discriminate].
  destruct (Ascii.eqb_spec c ".") as [-> | Hne]; [discriminate | ].
  intros Heq. inversion Heq. contradiction.
Qed.

(** *** Categories *)

Lemma first_occurrences_In k l :
  In k (first_occurrences l) <-> In k l.
Proof.
  induction l as [ | x l IH]; simpl; [reflexivity | ].
  rewrite filter_In, IH. split.
  - intros [-> | [Hin _]]; [left | right]; auto.
  - intros [-> | Hin]; [left; reflexivity | ].
    destruct (String.eqb_spec k x) as [-> | Hne]; [left; reflexivity | right].
    split; [exact Hin | reflexivity].
Qed.

Lemma first_occurrences_NoDup l : List.NoDup (first_occurrences l).
Proof.
  induction l as [ | x l IH]; simpl; [constructor | ].
  constructor.
  - rewrite filter_In. intros [_ Hne]. rewrite String.eqb_refl in Hne. discriminate.
  - apply List.NoDup_filter. exact IH.
Qed.

Lemma existsb_eqb_In k l : existsb (String.eqb k) l = true <-> In k l.
Proof.
  rewrite existsb_exists. split.
  - intros (x & Hin & Heq). apply String.eqb_eq in Heq. subst. exact Hin.
  - intros Hin. exists k. split; [exact Hin | apply String.eqb_refl].
Qed.

Lemma first_occurrences_snoc l k :
  first_occurrences (l ++ [k])
  = if existsb (String.eqb k) l then first_occurrences l
    else (first_occurrences l ++ [k])%list.
Proof.
  induction l as [ | x l IH]; [reflexivity | ].
  cbn [app first_occurrences existsb]. rewrite IH.
  destruct (String.eqb_spec k x) as [-> | Hne]; cbn [orb].
  - destruct (existsb (String.eqb x) l); [reflexivity | ].
    rewrite List.filter_app. cbn [List.filter]. rewrite String.eqb_refl.
    cbn [negb]. rewrite app_nil_r. reflexivity.
  - destruct (existsb (String.eqb k) l); [reflexivity | ].
    rewrite List.filter_app. cbn [List.filter].
    apply String.eqb_neq in Hne. rewrite Hne. reflexivity.
Qed.

Lemma rules_of_snoc k rules r :
  rules_of k (rules ++ [r])
  = (rules_of k rules ++ if String.eqb (category r) k then [r] else [])%list.
Proof.
  unfold rules_of. rewrite List.filter_app. cbn [List.filter].
  destruct (String.eqb (category r) k); reflexivity.
Qed.

Lemma rules_of_none k rules :
  existsb (String.eqb k) (map category rules) = false -> rules_of k rules = [].
Proof.
  induction rules as [ | r rules IH]; [reflexivity | ].
  cbn [map existsb]. intros Hnone. apply orb_false_iff in Hnone as [Hr Hrest].
  unfold rules_of. cbn [List.filter]. rewrite String.eqb_sym, Hr. apply IH. exact Hrest.
Qed.

Lemma own_map (f : string -> RuleCategory) k ks :
  own (map (fun k' => (k', f k')) ks) k
  = if existsb (String.eqb k) ks then Some (f k) else None.
Proof.
  unfold own. induction ks as [ | k' ks IH]; [reflexivity | ].
  cbn [map List.find fst existsb]. rewrite (String.eqb_sym k k').
  destruct (String.eqb_spec k' k) as [-> | Hne]; [reflexivity | exact IH].
Qed.

Lemma push_rule_dict_of rules r ks :
  push_rule (map (fun k => (k, {| id := k; ruleList := rules_of k rules |})) ks)
            (category r) r
  = map (fun k => (k, {| id := k; ruleList := rules_of k (rules ++ [r]) |})) ks.
Proof.
  unfold push_rule. rewrite map_map. apply map_ext. intros k. cbn [fst snd id ruleList].
  rewrite rules_of_snoc, (String.eqb_sym k).
  destruct (String.eqb (category r) k); [reflexivity | ].
  rewrite app_nil_r. reflexivity.
Qed.

Lemma existsb_first_occurrences k l :
  existsb (String.eqb k) (first_occurrences l) = existsb (String.eqb k) l.
Proof.
  destruct (existsb (String.eqb k) l) eqn:Hl.
  - apply (proj2 (existsb_eqb_In _ _)), (proj2 (first_occurrences_In _ _)),
      (proj1 (existsb_eqb_In _ _)). exact Hl.
  - destruct (existsb (String.eqb k) (first_occurrences l)) eqn:Hf; [ | reflexivity].
    apply (proj1 (existsb_eqb_In _ _)), (proj1 (first_occurrences_In _ _)),
      (proj2 (existsb_eqb_In _ _)) in Hf. congruence.
Qed.

Lemma category_step_dict_of rules r :
  category_step (dict_of rules) r
  = if existsb (String.eqb (category r)) (map category rules)
    then Value (dict_of (rules ++ [r]))
    else if inherited (category r)
         then Throw "Cannot read properties of undefined (reading 'push')"
         else Value (dict_of (rules ++ [r])).
Proof.
  unfold category_step, dict_of. cbv zeta.
  rewrite own_map, existsb_first_occurrences, map_app. cbn [map].
  rewrite first_occurrences_snoc.
  destruct (existsb (String.eqb (category r)) (map category rules)) eqn:Hseen.
  - rewrite push_rule_dict_of. reflexivity.
  - destruct (inherited (category r)); [reflexivity | ].
    rewrite map_app. cbn [map]. unfold push_rule. rewrite map_app.
    fold (push_rule
            (map (fun k => (k, {| id := k; ruleList := rules_of k rules |}))
                 (first_occurrences (map category rules))) (category r) r).
    rewrite push_rule_dict_of. cbn [map fst snd id ruleList].
    rewrite String.eqb_refl, rules_of_snoc, String.eqb_refl.
    rewrite (rules_of_none _ _ Hseen). reflexivity.
Qed.

Lemma reduce_categories_dict_of rules : forall seen,
  existsb inherited_category seen = false ->
  reduce_categories (dict_of seen) rules
  = if existsb inherited_category rules
    then Throw "Cannot read properties of undefined (reading 'push')"
    else Value (dict_of (seen ++ rules)).
Proof.
  induction rules as [ | r rules IH]; intros seen Hseen.
  - cbn. rewrite app_nil_r. reflexivity.
  - cbn [reduce_categories existsb]. rewrite category_step_dict_of.
    unfold inherited_category at 1.
    destruct (inherited (category r)) eqn:Hinh.
    + assert (Hnew : existsb (String.eqb (category r)) (map category seen) = false).
      { destruct (existsb (String.eqb (category r)) (map category seen)) eqn:Hin;
          [ | reflexivity].
        apply existsb_eqb_In, in_map_iff in Hin as (r' & Hcat & Hin).
        assert (Hr' : inherited_category r' = true)
          by (unfold inherited_category; rewrite Hcat; exact Hinh).
        assert (Hex : existsb inherited_category seen = true)
          by (apply existsb_exists; exists r'; split; assumption).
        congruence. }
      rewrite Hnew. reflexivity.
    + cbn [orb].
      assert (Hseen' : existsb inherited_category (seen ++ [r]) = false).
      { rewrite existsb_app, Hseen. cbn [existsb orb]. unfold inherited_category.
        rewrite Hinh. reflexivity. }
      destruct (existsb (String.eqb (category r)) (map category seen));
        rewrite (IH _ Hseen'), <- app_assoc; reflexivity.
Qed.

Lemma convertToCategoryList_eq rules :
  convertToCategoryList rules
  = if existsb inherited_category rules
    then Throw "Cannot read properties of undefined (reading 'push')"
    else Value (object_values (dict_of rules)).
Proof.
  unfold convertToCategoryList.
  change (@nil (string * RuleCategory)) with (dict_of []).
  rewrite (reduce_categories_dict_of rules [] eq_refl).
  destruct (existsb inherited_category rules); reflexivity.
Qed.

(** [convertToCategoryList] throws exactly when a rule has for category
    the name of a property that objects inherit, such as [constructor] or
    [toString]. *)
Theorem categories_throw_iff rules :
  (exists msg, convertToCategoryList rules = Throw msg)
  <-> exists r, In r rules /\ In (category r) object_prototype_members.
Proof.
  rewrite convertToCategoryList_eq. split.
  - intros [msg Hthrow].
    destruct (existsb inherited_category rules) eqn:Hinh; [ | discriminate].
    apply existsb_exists in Hinh as (r & Hin & Hr).
    exists r. split; [exact Hin | ].
    apply existsb_eqb_In. exact Hr.
  - intros (r & Hin & Hr).
    assert (Hinh : existsb inherited_category rules = true).
    { apply existsb_exists. exists r. split; [exact Hin | ].
      apply existsb_eqb_In. exact Hr. }
    rewrite Hinh. eexists; reflexivity.
Qed.

Lemma insert_by_index_Permutation e l : Permutation (insert_by_index e l) (e :: l).
Proof.
  induction l as [ | e' l IH]; [reflexivity | ].
  cbn [insert_by_index].
  destruct (array_index (fst e)) as [n | ]; [ | reflexivity].
  destruct (array_index (fst e')) as [n' | ]; [ | reflexivity].
  destruct (n <=? n')%N; [reflexivity | ].
  rewrite IH. apply perm_swap.
Qed.

Lemma sort_by_index_Permutation l : Permutation (sort_by_index l) l.
Proof.
  induction l as [ | e l IH]; [reflexivity | ].
  cbn [sort_by_index]. rewrite insert_by_index_Permutation, IH. reflexivity.
Qed.

Lemma filter_split_Permutation {A} (f : A -> bool) (l : list A) :
  Permutation (List.filter f l ++ List.filter (fun x => negb (f x)) l) l.
Proof.
  induction l as [ | x l IH]; [reflexivity | ].
  cbn [List.filter]. destruct (f x); cbn [negb app].
  - rewrite IH. reflexivity.
  - rewrite <- Permutation_middle, IH. reflexivity.
Qed.

Lemma object_values_Permutation dict :
  Permutation (object_values dict) (map snd dict).
Proof.
  unfold object_values. apply Permutation_map.
  rewrite sort_by_index_Permutation. apply filter_split_Permutation.
Qed.

Lemma dict_of_values rules :
  map snd (dict_of rules)
  = map (fun k => {| id := k; ruleList := rules_of k rules |})
        (first_occurrences (map category rules)).
Proof. unfold dict_of. rewrite map_map. reflexivity. Qed.

(** When it returns, [convertToCategoryList] returns a partition of the
    rules by category: the categories have distinct names, each holds
    exactly the rules of its name in the order of the list and at least
    one of them, and every rule is in the category of its name. *)
Theorem categories_partition rules categories :
  convertToCategoryList rules = Value categories ->
  List.NoDup (map id categories)
  /\ (forall c, In c categories ->
        ruleList c = List.filter (fun r => String.eqb (category r) (id c)) rules
        /\ ruleList c <> [])
  /\ (forall r, In r rules ->
        exists c, In c categories /\ id c = category r /\ In r (ruleList c)).
Proof.
  rewrite convertToCategoryList_eq.
  destruct (existsb inherited_category rules); [discriminate | ].
  intros Heq. inversion Heq; subst categories. clear Heq.
  pose proof (object_values_Permutation (dict_of rules)) as Hperm.
  rewrite dict_of_values in Hperm.
  split; [ | split].
  - rewrite (Permutation_map id Hperm), map_map. cbn [id].
    rewrite map_id. apply first_occurrences_NoDup.
  - intros c Hc. apply (Permutation_in _ Hperm) in Hc.
    apply in_map_iff in Hc as (k & <- & Hk). cbn [id ruleList].
    split; [reflexivity | ].
    apply first_occurrences_In, in_map_iff in Hk as (r & Hcat & Hr).
    intros Hnone.
    assert (Hin : In r (rules_of k rules)).
    { unfold rules_of. apply filter_In. split; [exact Hr | ].
      rewrite Hcat. apply String.eqb_refl. }
    rewrite Hnone in Hin. destruct Hin.
  - intros r Hr.
    exists {| id := category r; ruleList := rules_of (category r) rules |}.
    split; [ | split; [reflexivity | ]].
    + apply (Permutation_in _ (Permutation_sym Hperm)).
      apply in_map_iff. exists (category r). split; [reflexivity | ].
      apply first_occurrences_In, in_map. exact Hr.
    + cbn [ruleList]. unfold rules_of. apply filter_In.
      split; [exact Hr | apply String.eqb_refl].
Qed.

Lemma filter_none {A} (f : A -> bool) (l : list A) :
  (forall x, In x l -> f x = false) -> List.filter f l = [].
Proof.
  induction l as [ | x l IH]; intros Hf; [reflexivity | ].
  cbn [List.filter]. rewrite (Hf x (or_introl eq_refl)).
  apply IH. intros y Hy. apply Hf. right. exact Hy.
Qed.

Lemma filter_all {A} (f : A -> bool) (l : list A) :
  (forall x, In x l -> f x = true) -> List.filter f l = l.
Proof.
  induction l as [ | x l IH]; intros Hf; [reflexivity | ].
  cbn [List.filter]. rewrite (Hf x (or_introl eq_refl)).
  f_equal. apply IH. intros y Hy. apply Hf. right. exact Hy.
Qed.

(** When no category is an array index (a decimal numeral such as [0] or
    [12]) and none is the name of an inherited property, the categories
    come in the order in which they first occur in the list. *)
Theorem categories_in_order_of_occurrence rules :
  (forall r, In r rules ->
     is_array_index (category r) = false /\ inherited (category r) = false) ->
  exists categories,
    convertToCategoryList rules = Value categories
    /\ map id categories = first_occurrences (map category rules).
Proof.
  intros Hplain. rewrite convertToCategoryList_eq.
  assert (Hinh : existsb inherited_category rules = false).
  { destruct (existsb inherited_category rules) eqn:Hex; [ | reflexivity].
    apply existsb_exists in Hex as (r & Hr & Hr').
    destruct (Hplain r Hr) as [_ Hno]. unfold inherited_category in Hr'. congruence. }
  rewrite Hinh. eexists. split; [reflexivity | ].
  assert (Hkeys : forall e, In e (dict_of rules) -> is_array_index (fst e) = false).
  { intros e He. unfold dict_of in He.
    apply in_map_iff in He as (k & <- & Hk). cbn [fst].
    apply first_occurrences_In, in_map_iff in Hk as (r & <- & Hr).
    apply (Hplain r Hr). }
  unfold object_values.
  rewrite (filter_none _ _ Hkeys). cbn [sort_by_index app].
  rewrite filter_all.
  - rewrite dict_of_values, map_map. cbn [id]. apply map_id.
  - intros e He. rewrite (Hkeys e He). reflexivity.
Qed.

(** *** The template map *)

Section TemplateMap.

Variable EngineJSON : Type.
Variable engineFromJSON : EngineJSON -> Engine.

Lemma lookup_template_step map ruleSchema ty e :
  lookup_template (template_map_step EngineJSON engineFromJSON map ruleSchema) ty e
  = if schema_for EngineJSON engineFromJSON ty e ruleSchema
    then Some (template_of_schema EngineJSON engineFromJSON ruleSchema)
    else lookup_template map ty e.
Proof.
  unfold lookup_template, template_map_step, schema_for. cbv zeta.
  set (ty' := schema_type EngineJSON ruleSchema).
  set (e' := engineFromJSON (schema_engine EngineJSON ruleSchema)).
  destruct (String.eqb_spec ty' ty) as [<- | Hty]; cbn [andb].
  - destruct (map !! ty') as [inner | ] eqn:Hinner.
    + rewrite Hinner, lookup_insert_eq.
      destruct (Z.eqb_spec e' e) as [<- | He].
      * apply lookup_insert_eq.
      * apply lookup_insert_ne. exact He.
    + rewrite lookup_insert_eq, lookup_insert_eq.
      destruct (Z.eqb_spec e' e) as [<- | He].
      * apply lookup_insert_eq.
      * rewrite lookup_insert_ne by exact He. apply lookup_empty.
  - destruct (map !! ty') as [inner | ] eqn:Hinner.
    + rewrite Hinner, lookup_insert_ne by exact Hty. reflexivity.
    + rewrite lookup_insert_eq, lookup_insert_ne by exact Hty.
      rewrite lookup_insert_ne by exact Hty. reflexivity.
Qed.

(** Looking a rule type and an engine up in the template map gives the
    last entry of the schema with that type and, once read, that engine,
    with its engine read and an empty component list when it has none; and
    nothing when the schema has no such entry. *)
Theorem template_map_lookup sqlReviewSchema ty e :
  lookup_template (ruleTemplateMapV2 EngineJSON engineFromJSON sqlReviewSchema) ty e
  = match List.find (schema_for EngineJSON engineFromJSON ty e) (rev sqlReviewSchema) with
    | Some ruleSchema => Some (template_of_schema EngineJSON engineFromJSON ruleSchema)
    | None => None
    end.
Proof.
  unfold ruleTemplateMapV2.
  induction sqlReviewSchema as [ | ruleSchema schema IH] using rev_ind.
  - cbn. unfold lookup_template. rewrite lookup_empty. reflexivity.
  - rewrite fold_left_app, rev_app_distr. cbn [fold_left rev app List.find].
    rewrite lookup_template_step.
    destruct (schema_for EngineJSON engineFromJSON ty e ruleSchema);
      [reflexivity | exact IH].
Qed.

End TemplateMap.

(** *** At the sample lists *)

Lemma categories_throw_iff_witness :
  (exists r, In r inherited_rules /\ In (category r) object_prototype_members)
  /\ exists msg, convertToCategoryList inherited_rules = Throw msg.
Proof.
  assert (Hinherited : exists r, In r inherited_rules
                                 /\ In (category r) object_prototype_members).
  { exists (in_category "toString" "table.comment").
    split; [right; left; reflexivity | ].
    do 8 right. left. reflexivity. }
  split; [exact Hinherited | ].
  exact (proj2 (categories_throw_iff inherited_rules) Hinherited).
Defined.

Lemma categories_partition_witness :
  convertToCategoryList numbered_rules
  = Value [ {| id := "2"; ruleList := [in_category "2" "column.required"] |};
            {| id := "10";
               ruleList := [in_category "10" "table.comment";
                            in_category "10" "table.limit-size"] |};
            {| id := "NAMING"; ruleList := [in_category "NAMING" "naming.table"] |} ]
  /\ List.NoDup ["2"; "10"; "NAMING"].
Proof.
  assert (Hlist : convertToCategoryList numbered_rules
                  = Value [ {| id := "2";
                               ruleList := [in_category "2" "column.required"] |};
                            {| id := "10";
                               ruleList := [in_category "10" "table.comment";
                                            in_category "10" "table.limit-size"] |};
                            {| id := "NAMING";
                               ruleList := [in_category "NAMING" "naming.table"] |} ])
    by reflexivity.
  split; [exact Hlist | ].
  exact (proj1 (categories_partition _ _ Hlist)).
Defined.

Lemma plain_rules_plain r :
  In r plain_rules ->
  is_array_index (category r) = false /\ inherited (category r) = false.
Proof.
  intros Hin. repeat (destruct Hin as [<- | Hin]; [split; reflexivity | ]).
  destruct Hin.
Defined.

Lemma categories_in_order_of_occurrence_witness :
  (forall r, In r plain_rules ->
     is_array_index (category r) = false /\ inherited (category r) = false)
  /\ exists categories,
       convertToCategoryList plain_rules = Value categories
       /\ map id categories = ["NAMING"; "TABLE"; "COLUMN"].
Proof.
  split; [exact plain_rules_plain | ].
  exact (categories_in_order_of_occurrence plain_rules plain_rules_plain).
Defined.

End catalog_properties.
